(** * Enzyme-JAX CPU kernel registry: [enzyme_call.cc]

    A shallow embedding of [src/enzyme_call.cc]: the class [CpuKernel] (the
    source text it writes for a kernel, [create], [get], [call]), the
    custom-call target [CpuCallback] and the Python entry point
    [create_enzyme_cpu_kernel], followed by the properties of the registry,
    of the synthesized source and of the dispatcher.

    Conventions.
    - [int64_t] and [uint64_t] values are [Z]; the increment of the identifier
      counter is written with its two's-complement wrap-around ([int64]).
    - [std::string] is [string]; [llvm::raw_string_ostream] is the string
      written so far and [ss << x] appends to it.
    - [llvm::DenseMap<int64_t, std::unique_ptr<CpuKernel>>] is a [gmap Z t],
      through its finite-map interface ([find], [try_emplace]); that is
      what a [DenseMap] does on every key but the two it keeps for itself
      ([DenseMap_reserved]), on which its functions have no contract.
    - The static members of [CpuKernel] are the fields of [State]; functions
      that read or write them run in the monad [M], whose results are a
      normal return, a thrown [pybind11::value_error], or an out-of-bounds
      read of an [llvm::ArrayRef].
    - The compiler front end ([GetLLVMFromJob], declared in
      [clang_compile.h]) and the ORC JIT ([LLJITBuilder], [addIRModule],
      [lookup]) are outside this file; a [Toolchain] holds their answers. *)

From Stdlib Require Import ZArith String Ascii DecimalString DecimalZ DecimalNat
  DecimalPos List Lia.
From stdpp Require Import gmap.

Open Scope string_scope.
Open Scope Z_scope.

(** ** Text *)

(** The line feed and the double quote, which string literals here spell by
    their character codes. *)
Definition LF : string := String "010"%char EmptyString.
Definition DQUOTE : string := String "034"%char EmptyString.

(** [std::to_string(int64_t)]: optional minus sign and decimal digits. *)
Definition to_string (v : Z) : string := NilZero.string_of_int (Z.to_int v).

(** [raw_ostream::operator<<(size_t)]: decimal digits. *)
Definition size_to_string (i : nat) : string :=
  NilZero.string_of_uint (Nat.to_uint i).

(** [ss << x] on a [raw_string_ostream]. *)
Notation "ss << x" := (String.append ss x)
  (at level 50, left associativity, only parsing).

(** ** Results and loops *)

(** How a function of the file ends: it returns, it throws
    [pybind11::value_error(what)], or it indexes an [llvm::ArrayRef] past its
    end (an assertion failure; undefined without assertions). *)
Inductive result (A : Type) : Type :=
| Return (a : A)
| value_error (what : string)
| OutOfBounds.
Arguments Return {A} a.
Arguments value_error {A} what.
Arguments OutOfBounds {A}.

(** [for (size_t i = start; i < start + n; i++) body]: [n] iterations left,
    [i] the current index. A body that reads out of bounds ends the loop. *)
Fixpoint for_loop {A : Type} (n i : nat) (body : nat → A → option A) (a : A)
  : option A :=
  match n with
  | O => Some a
  | S n' => a' ← body i a; for_loop n' (S i) body a'
  end.

(** ** The world outside the file *)

(** What [create] reads of an [llvm::Module]: the data layout it builds [DL]
    from and [getTargetTriple()]. *)
Record LLVMModule : Type := {
  data_layout : string;
  target_triple : string
}.

(** The [llvm::orc::LLJIT] that [create] builds: the layout and triple handed
    to the builder, and the names of the [JITDylib]s created in its session. *)
Record LLJIT : Type := {
  jit_layout : string;
  jit_triple : string;
  dylibs : list string
}.

(** [PyObject* pyargv]: the compiler arguments, passed through unread. *)
Definition PyArgv : Type := list string.

(** The answers of the external collaborators during one call of [create]. *)
Record Toolchain : Type := {
  (** [GetLLVMFromJob(filename, source, cpp, pyargv, ctx)]: the module, or
      null. *)
  GetLLVMFromJob : string → string → bool → PyArgv → option LLVMModule;
  (** [LLJITBuilder()...create()] for a layout and a triple: [true] when the
      [Expected] holds a JIT. *)
  LLJITBuilder_create : string → string → bool;
  (** [JIT->addIRModule(LibA, module)]: [true] when it returns an [Error]. *)
  addIRModule : string → LLVMModule → bool;
  (** [JIT->lookup(LibA, name)]: the address of the symbol, if found. *)
  lookup : string → string → option Z
}.

(** ** class CpuKernel *)

Module CpuKernel.

(** The non-static members, as the constructor fills them. *)
Record t : Type := CpuKernel {
  identifier : Z;
  out_shapes : list (list Z);
  addr : Z
}.

(** [make_type(typenam, shape, constv)]. *)
Definition make_type (typenam : string) (shape : list Z) (constv : bool)
  : string :=
  let s := ((if constv then "const " else "") ++ "enzyme::tensor<") ++ typenam in
  let s := fold_left (λ s v, s ++ (", " ++ to_string v)) shape s in
  s ++ ">".

(** The body of the first loop of [create]: the statement that binds
    [out_i]. *)
Definition out_statement_body (out_shapes : list (list Z))
    (out_names : list string) (i : nat) (ss : string) : option string :=
  name ← out_names !! i;
  shape ← out_shapes !! i;
  Some (ss << " " << make_type name shape false << "& out_"
           << size_to_string i << " = " << "*("
           << make_type name shape false << "*)outs[" << size_to_string i
           << "];" ++ LF).

(** The body of the second loop: the statement that binds [in_i]. *)
Definition in_statement_body (in_shapes : list (list Z))
    (in_names : list string) (i : nat) (ss : string) : option string :=
  name ← in_names !! i;
  shape ← in_shapes !! i;
  Some (ss << " " << make_type name shape true << "& in_"
           << size_to_string i << " = " << "*("
           << make_type name shape true << "*)ins[" << size_to_string i
           << "];" ++ LF).

(** The bodies of the two argument loops; the state is the stream and the
    flag [comma]. *)
Definition argument_body (prefix : string) (i : nat) (s : string * bool)
  : option (string * bool) :=
  let '(ss, comma) := s in
  let ss := if comma then ss << ", " else ss in
  let ss := ss << prefix << size_to_string i in
  Some (ss, true).

(** Lines 86 to 111 of [create]: the text written to [input] through [ss],
    which is then handed to the compiler. *)
Definition input (source : string)
    (out_shapes : list (list Z)) (out_names : list string)
    (in_shapes : list (list Z)) (in_names : list string) : option string :=
  let ss := "" in
  let ss := ss << "#include <cstdint>" ++ LF in
  let ss := ss << "#include <enzyme_tensor>" ++ LF in
  let ss := ss << source << LF in
  let ss := ss << "extern " ++ DQUOTE ++ "C" ++ DQUOTE
                  ++ " void entry(void** __restrict__ outs, void** __restrict__ ins) {"
                  ++ LF in
  ss ← for_loop (length out_shapes) 0
         (out_statement_body out_shapes out_names) ss;
  ss ← for_loop (length in_shapes) 0
         (in_statement_body in_shapes in_names) ss;
  let ss := ss << "  myfn(" in
  let comma := false in
  '(ss, comma) ← for_loop (length out_shapes) 0 (argument_body "out_")
                   (ss, comma);
  '(ss, comma) ← for_loop (length in_shapes) 0 (argument_body "in_")
                   (ss, comma);
  let ss := ss << ");" ++ LF in
  let ss := ss << "}" ++ LF in
  Some ss.

(** *** The static members and the functions that use them *)

(** [kernels], [last_identifier], [DL] (the layout string it was built from)
    and [JIT]; [kernel_mutex] guards them and holds no data. *)
Record State : Type := {
  kernels : gmap Z t;
  last_identifier : Z;
  DL : option string;
  JIT : option LLJIT
}.

(** The definitions after the class: an empty map, the counter at 1, no
    layout and a null [JIT]. *)
Definition initial : State :=
  {| kernels := ∅; last_identifier := 1; DL := None; JIT := None |}.

(** The value of a 64-bit signed integer after an arithmetic step. *)
Definition int64 (z : Z) : Z := (z + 2 ^ 63) mod 2 ^ 64 - 2 ^ 63.

Definition INT64_MAX : Z := 2 ^ 63 - 1.

(** Code that reads and writes the static members and may throw. *)
Definition M (A : Type) : Type := State → result A * State.

Definition ret {A : Type} (a : A) : M A := λ st, (Return a, st).

Definition bind {A B : Type} (m : M A) (k : A → M B) : M B :=
  λ st,
    match m st with
    | (Return a, st') => k a st'
    | (value_error what, st') => (value_error what, st')
    | (OutOfBounds, st') => (OutOfBounds, st')
    end.

Definition throw {A : Type} (what : string) : M A :=
  λ st, (value_error what, st).

Definition gets {A : Type} (f : State → A) : M A :=
  λ st, (Return (f st), st).

Definition modify (f : State → State) : M unit := λ st, (Return tt, f st).

(** An [ArrayRef] read: the value, or out of bounds. *)
Definition checked {A : Type} (o : option A) : M A :=
  λ st, match o with Some a => (Return a, st) | None => (OutOfBounds, st) end.

Notation "x <- m ;; k" := (bind m (λ x, k))
  (at level 100, m at level 99, k at level 200, right associativity).
Notation "m ;;; k" := (bind m (λ _, k))
  (at level 100, k at level 200, right associativity).

(** [last_identifier++]: the old value is the result. Past [INT64_MAX] the
    increment is undefined in C++; here it wraps around, as the machine
    does. *)
Definition post_increment_last_identifier : M Z :=
  λ st,
    (Return (last_identifier st),
     {| kernels := kernels st;
        last_identifier := int64 (last_identifier st + 1);
        DL := DL st; JIT := JIT st |}).

Definition set_DL (layout : string) (st : State) : State :=
  {| kernels := kernels st; last_identifier := last_identifier st;
     DL := Some layout; JIT := JIT st |}.

Definition set_JIT (J : option LLJIT) (st : State) : State :=
  {| kernels := kernels st; last_identifier := last_identifier st;
     DL := DL st; JIT := J |}.

Definition set_kernels (m : gmap Z t) (st : State) : State :=
  {| kernels := m; last_identifier := last_identifier st;
     DL := DL st; JIT := JIT st |}.

(** [JIT->getExecutionSession().createJITDylib(name)]: the session of the
    JIT gains a [JITDylib]; the call returns it, here by its name. *)
Definition createJITDylib (name : string) : M string :=
  modify (λ st,
    set_JIT ((λ J, {| jit_layout := jit_layout J; jit_triple := jit_triple J;
                      dylibs := name :: dylibs J |}) <$> JIT st) st) ;;;
  ret name.

(** [DenseMap::try_emplace(key, value)]: inserts unless the key is there. *)
Definition try_emplace (key : Z) (value : t) (m : gmap Z t) : gmap Z t :=
  match m !! key with
  | Some _ => m
  | None => <[key := value]> m
  end.

(** [create(source, out_shapes, out_names, in_shapes, in_names, pyargv)]. *)
Definition create (T : Toolchain) (source : string)
    (out_shapes : list (list Z)) (out_names : list string)
    (in_shapes : list (list Z)) (in_names : list string)
    (pyargv : PyArgv) : M Z :=
  identifier <- post_increment_last_identifier ;;
  text <- checked (input source out_shapes out_names in_shapes in_names) ;;
  module <- match GetLLVMFromJob T "/enzyme_call/source.cpp" text true
                       pyargv with
            | None => throw "failed to compile C++"
            | Some module => ret module
            end ;;
  jit <- gets JIT ;;
  match jit with
  | Some _ => ret tt
  | None =>
      modify (set_DL (data_layout module)) ;;;
      if LLJITBuilder_create T (data_layout module) (target_triple module)
      then modify (set_JIT (Some {| jit_layout := data_layout module;
                                    jit_triple := target_triple module;
                                    dylibs := [] |}))
      else throw "failed to create jit"
  end ;;;
  LibA <- createJITDylib ("enzymedl_" ++ to_string identifier) ;;
  (if addIRModule T LibA module
   then throw "failed to add IR module"
   else ret tt) ;;;
  EntrySym <- match lookup T LibA "entry" with
              | None => throw "failed to lookup function called 'entry'"
              | Some sym => ret sym
              end ;;
  let Entry := EntrySym in
  modify (λ st,
    set_kernels
      (try_emplace identifier (CpuKernel identifier out_shapes Entry)
         (kernels st)) st) ;;;
  ret identifier.

(** [get(identifier)]: the kernel, or null. This is [kernels.find] on a key
    within its contract; the two keys outside it are [DenseMap_reserved],
    below. *)
Definition get (identifier : Z) (st : State) : option t :=
  kernels st !! identifier.

(** The call that [call] makes through [addr]. Its first argument is either
    [out] itself, read as the start of an array of pointers, or the address
    of the parameter [out], a one-slot array whose slot holds [out]. *)
Inductive outs_argument : Type :=
| reinterpreted (out : Z)
| address_of (out : Z).

Record native_call : Type := {
  fn : Z;
  outs : outs_argument;
  ins : Z
}.

(** [call(out, ins)]; the two lines written to [llvm::errs()] are left
    out. *)
Definition call (kernel : t) (out : Z) (ins : Z) : native_call :=
  let outs :=
    if (1 <? length (out_shapes kernel))%nat
    then reinterpreted out
    else address_of out in
  {| fn := addr kernel; outs := outs; ins := ins |}.

End CpuKernel.

(** The two keys that [llvm::DenseMapInfo<int64_t>] keeps for the map's own
    use, [int64_t] being [long]: the empty key [INT64_MAX] and the tombstone
    key [INT64_MAX - 1]. On them [find] and [try_emplace] are outside the
    contract of [DenseMap]: an assertion fails, and without assertions
    [find] can take an empty bucket for the key. [CpuKernel.get] is what
    [find] does on every other key; a property that concludes a miss is
    stated for the other keys only. *)
Definition DenseMap_reserved (key : Z) : bool :=
  bool_decide (key = CpuKernel.INT64_MAX)
  || bool_decide (key = CpuKernel.INT64_MAX - 1).

(** ** The custom-call target *)

(** The memory of the host, in cells of eight bytes: the 64 bits stored at
    an address, when the address is readable. *)
Abbreviation Memory := (gmap Z Z).

Definition sizeof_pointer : Z := 8.

(** How [CpuCallback] ends: the kernel was called and returned;
    [llvm::report_fatal_error] ended the process; or [ins] or [ins[0]] was
    not readable. *)
Inductive callback_result : Type :=
| Called (c : CpuKernel.native_call)
| report_fatal_error (reason : string)
| InvalidRead.

(** [CpuCallback(out, ins)]. *)
Definition CpuCallback (st : CpuKernel.State) (mem : Memory) (out ins : Z)
  : callback_result :=
  match mem !! ins with
  | None => InvalidRead
  | Some ins_0 =>
      match mem !! ins_0 with
      | None => InvalidRead
      | Some word =>
          let identifier := CpuKernel.int64 word in
          match CpuKernel.get identifier st with
          | None => report_fatal_error "couldn't find enzyme kernel"
          | Some kernel =>
              Called (CpuKernel.call kernel out (ins + 1 * sizeof_pointer))
          end
      end
  end.

(** ** The Python entry point *)

(** One loop of the lambda bound to [create_enzyme_cpu_kernel]: each element
    [(dtype, nested)] pushes [dtype] on the types and a vector of the
    elements of [nested] on the shapes. The elements are already cast:
    a value that is not an [int64_t] raises in the cast. *)
Definition unpack_shapes (py_shapes : list (string * list Z))
  : list (list Z) * list string :=
  fold_left
    (λ '(shapes, types) '(dtype, nested),
       ((shapes ++ [fold_left (λ target e, target ++ [e]) nested []])%list,
        (types ++ [dtype])%list))
    py_shapes ([], []).

(** [create_enzyme_cpu_kernel(source, py_out_shapes, py_in_shapes,
    pyargv)]. *)
Definition create_enzyme_cpu_kernel (T : Toolchain) (source : string)
    (py_out_shapes py_in_shapes : list (string * list Z)) (pyargv : PyArgv)
  : CpuKernel.M Z :=
  let '(out_shapes, out_types) := unpack_shapes py_out_shapes in
  let '(in_shapes, in_types) := unpack_shapes py_in_shapes in
  CpuKernel.create T source out_shapes out_types in_shapes in_types pyargv.

(** ** Histories of the process *)

(** One call of [create_enzyme_cpu_kernel], with the answers the toolchain
    gives during it. *)
Record Request : Type := {
  toolchain : Toolchain;
  source : string;
  py_out_shapes : list (string * list Z);
  py_in_shapes : list (string * list Z);
  pyargv : PyArgv
}.

Definition serve (r : Request) : CpuKernel.M Z :=
  create_enzyme_cpu_kernel (toolchain r) (source r) (py_out_shapes r)
    (py_in_shapes r) (pyargv r).

(** What one call did: the value of [last_identifier] it read on entry (the
    identifier it allocated) and how it ended. *)
Record Event : Type := {
  allocated : Z;
  outcome : result Z
}.

(** The calls of a history, one after the other. *)
Fixpoint run (rs : list Request) (st : CpuKernel.State)
  : list Event * CpuKernel.State :=
  match rs with
  | [] => ([], st)
  | r :: rs' =>
      let '(res, st') := serve r st in
      let '(log, st'') := run rs' st' in
      ({| allocated := CpuKernel.last_identifier st; outcome := res |} :: log,
       st'')
  end.

(** ** The synthesized translation unit, as the specification words it *)

(** A descriptor is an element type name and the list of extents. *)
Abbreviation Descriptor := (string * list Z)%type.

(** The shaped tensor type of a descriptor. *)
Definition tensor_type (d : Descriptor) : string :=
  "enzyme::tensor<" ++ String.concat ", " (fst d :: map to_string (snd d))
    ++ ">".

(** Output number [i] is bound as a mutable reference to the buffer that
    [outs[i]] points to. *)
Definition output_reinterpretation (i : nat) (d : Descriptor) : string :=
  " " ++ tensor_type d ++ "& out_" ++ size_to_string i ++ " = *("
    ++ tensor_type d ++ "*)outs[" ++ size_to_string i ++ "];" ++ LF.

(** Input number [i] is bound as a const reference to the buffer that
    [ins[i]] points to. *)
Definition input_reinterpretation (i : nat) (d : Descriptor) : string :=
  " const " ++ tensor_type d ++ "& in_" ++ size_to_string i ++ " = *(const "
    ++ tensor_type d ++ "*)ins[" ++ size_to_string i ++ "];" ++ LF.

(** The reinterpretation statements: outputs, then inputs, each in
    declaration order. *)
Definition reinterpretations (outputs inputs : list Descriptor) : list string :=
  app (imap output_reinterpretation outputs)
      (imap input_reinterpretation inputs).

(** The arguments of the call: all outputs, then all inputs. *)
Definition call_arguments (outputs inputs : list Descriptor) : list string :=
  app (imap (λ i _, "out_" ++ size_to_string i) outputs)
      (imap (λ i _, "in_" ++ size_to_string i) inputs).

(** The names [prefix i], ..., [prefix (i + n - 1)]. *)
Definition numbered (prefix : string) (i n : nat) : list string :=
  map (λ j, prefix ++ size_to_string j) (seq i n).

(** A statement that calls [callee] with the given arguments. *)
Definition call_statement (callee : string) (arguments : list string) : string :=
  "  " ++ callee ++ "(" ++ String.concat ", " arguments ++ ");" ++ LF.

(** The entry function: fixed signature, the reinterpretations, the call. *)
Definition entry_function (body : list string) (call : string) : string :=
  "extern " ++ DQUOTE ++ "C" ++ DQUOTE
    ++ " void entry(void** __restrict__ outs, void** __restrict__ ins) {"
    ++ LF ++ String.concat "" body ++ call ++ "}" ++ LF.

(** The translation unit: the two includes, the user's text verbatim, the
    entry function. *)
Definition translation_unit (source entry : string) : string :=
  "#include <cstdint>" ++ LF ++ "#include <enzyme_tensor>" ++ LF
    ++ source ++ LF ++ entry.

(** ** The steps of one creation *)

(** The name of the [JITDylib] of a kernel. *)
Definition dylib_name (identifier : Z) : string :=
  "enzymedl_" ++ to_string identifier.

(** Compilation: the answer of the compiler on the text of the request. *)
Definition compile_step (r : Request) : option LLVMModule :=
  let '(out_shapes, out_types) := unpack_shapes (py_out_shapes r) in
  let '(in_shapes, in_types) := unpack_shapes (py_in_shapes r) in
  text ← CpuKernel.input (source r) out_shapes out_types in_shapes in_types;
  GetLLVMFromJob (toolchain r) "/enzyme_call/source.cpp" text true (pyargv r).

(** The engine: there is a JIT already, or one can be built for the
    module. *)
Definition engine_step (r : Request) (st : CpuKernel.State)
    (module : LLVMModule) : bool :=
  match CpuKernel.JIT st with
  | Some _ => true
  | None =>
      LLJITBuilder_create (toolchain r) (data_layout module)
        (target_triple module)
  end.

(** Linking: the module is added without an error. *)
Definition link_step (r : Request) (st : CpuKernel.State)
    (module : LLVMModule) : bool :=
  negb (addIRModule (toolchain r)
          (dylib_name (CpuKernel.last_identifier st)) module).

(** Resolution: the address of [entry]. *)
Definition resolve_step (r : Request) (st : CpuKernel.State) : option Z :=
  lookup (toolchain r) (dylib_name (CpuKernel.last_identifier st)) "entry".

(** A request is valid in a state when every step succeeds; otherwise
    compilation or a later step fails. *)
Definition succeeds (r : Request) (st : CpuKernel.State) : bool :=
  match compile_step r with
  | None => false
  | Some module =>
      engine_step r st module && link_step r st module
        && bool_decide (is_Some (resolve_step r st))
  end.

(** The results that a history returned. *)
Definition returned (log : list Event) (identifier : Z) : Prop :=
  ∃ e, e ∈ log ∧ outcome e = Return identifier.

(** ** A host with two targets *)

(** A toolchain whose compiler rejects the text [syntax error], takes the
    target triple from the first compiler argument, and whose JIT can only
    be built for [x86_64-unknown-linux-gnu]. *)
Definition host_module (triple : string) : LLVMModule :=
  {| data_layout := "e-m:e-i64:64-n8:16:32:64-S128"; target_triple := triple |}.

Definition host_toolchain : Toolchain :=
  {| GetLLVMFromJob := λ _ text _ argv,
       if bool_decide (text =
            translation_unit "syntax error"
              (entry_function [] (call_statement "myfn" [])))
       then None
       else Some (host_module (hd "x86_64-unknown-linux-gnu" argv));
     LLJITBuilder_create := λ _ triple,
       bool_decide (triple = "x86_64-unknown-linux-gnu");
     addIRModule := λ _ _, false;
     lookup := λ name symbol,
       if bool_decide (symbol = "entry")
       then Some (4096 * Z.of_nat (String.length name))
       else None |}.

(** A kernel that copies a tensor of four floats. *)
Definition copy_request (argv : PyArgv) : Request :=
  {| toolchain := host_toolchain;
     source := "void myfn(enzyme::tensor<float, 4>& out, const enzyme::tensor<float, 4>& in) { out = in; }";
     py_out_shapes := [("float", [4])];
     py_in_shapes := [("float", [4])];
     pyargv := argv |}.

(** A request whose text does not compile. *)
Definition broken_request : Request :=
  {| toolchain := host_toolchain;
     source := "syntax error";
     py_out_shapes := [];
     py_in_shapes := [];
     pyargv := [] |}.

(** ** A host whose compiler arguments supply [myfn] *)



(** A history on that host: a call for a target the JIT cannot be built
    for, a call whose text does not compile, and a call that goes
    through. *)
Definition sample_history : list Request :=
  [copy_request ["riscv64"]; broken_request; copy_request []].

(** A host memory for [CpuCallback]: [ins] is address 100, [ins[0]] points
    to address 200, where the identifier is stored. *)
Definition sample_memory (identifier : Z) : Memory :=
  {[ 100 := 200; 200 := identifier ]}.

(** ** The state after the steps of a call *)

(** After the identifier is allocated. *)
Definition after_entry (st : CpuKernel.State) : CpuKernel.State :=
  {| CpuKernel.kernels := CpuKernel.kernels st;
     CpuKernel.last_identifier :=
       CpuKernel.int64 (CpuKernel.last_identifier st + 1);
     CpuKernel.DL := CpuKernel.DL st;
     CpuKernel.JIT := CpuKernel.JIT st |}.

(** After the engine step succeeded and the [JITDylib] of the call was
    created: the JIT is the one there was, or the one built for the module,
    with one more name. *)
Definition after_engine (st : CpuKernel.State) (module : LLVMModule)
  : CpuKernel.State :=
  let J := match CpuKernel.JIT st with
           | Some J => J
           | None => {| jit_layout := data_layout module;
                        jit_triple := target_triple module; dylibs := [] |}
           end in
  {| CpuKernel.kernels := CpuKernel.kernels st;
     CpuKernel.last_identifier :=
       CpuKernel.int64 (CpuKernel.last_identifier st + 1);
     CpuKernel.DL := match CpuKernel.JIT st with
                     | Some _ => CpuKernel.DL st
                     | None => Some (data_layout module)
                     end;
     CpuKernel.JIT :=
       Some {| jit_layout := jit_layout J; jit_triple := jit_triple J;
               dylibs :=
                 dylib_name (CpuKernel.last_identifier st) :: dylibs J |} |}.

(** The identifiers that a history returned, in order. *)
Definition returned_identifiers (log : list Event) : list Z :=
  omap (λ e, match outcome e with Return k => Some k | _ => None end) log.

(** Where a record comes from: a call of the history that returned its
    key, with the shapes of that call and the address resolved in it. *)
Definition created_by (rs : list Request) (log : list Event)
    (k : Z) (kernel : CpuKernel.t) : Prop :=
  ∃ i r e,
    rs !! i = Some r ∧ log !! i = Some e ∧ outcome e = Return k
    ∧ CpuKernel.identifier kernel = k
    ∧ CpuKernel.out_shapes kernel = map snd (py_out_shapes r)
    ∧ lookup (toolchain r) (dylib_name k) "entry"
      = Some (CpuKernel.addr kernel).

(** Every kernel has its [JITDylib], and [DL] is the layout of the JIT. *)
Definition session_covers (st : CpuKernel.State) : Prop :=
  (∀ k, is_Some (CpuKernel.kernels st !! k) →
     ∃ J, CpuKernel.JIT st = Some J ∧ dylib_name k ∈ dylibs J)
  ∧ (∀ J, CpuKernel.JIT st = Some J →
       CpuKernel.DL st = Some (jit_layout J)).

(** The names of the session are those of identifiers already allocated,
    each once. *)
Definition session_distinct (st : CpuKernel.State) : Prop :=
  ∀ J, CpuKernel.JIT st = Some J →
    NoDup (dylibs J)
    ∧ ∀ name, name ∈ dylibs J →
        ∃ k, 1 ≤ k < CpuKernel.last_identifier st ∧ name = dylib_name k.

(** The JIT and the kernel that the sample history leaves behind. *)
Definition sample_jit : LLJIT :=
  {| jit_layout := "e-m:e-i64:64-n8:16:32:64-S128";
     jit_triple := "x86_64-unknown-linux-gnu";
     dylibs := ["enzymedl_3"] |}.

Definition sample_kernel : CpuKernel.t :=
  {| CpuKernel.identifier := 3; CpuKernel.out_shapes := [[4]];
     CpuKernel.addr := 40960 |}.

(** * Properties

    ** Strings *)

Section Text.

Lemma append_cons (ch : ascii) (a b : string) :
  String ch a ++ b = String ch (a ++ b).
Proof. reflexivity. Qed.

Lemma append_assoc (a b c : string) : (a ++ b) ++ c = a ++ (b ++ c).
Proof.
  induction a as [|ch a IH]; [reflexivity |].
  by rewrite !append_cons, IH.
Qed.

Lemma append_empty_r (a : string) : a ++ "" = a.
Proof.
  induction a as [|ch a IH]; [reflexivity |].
  by rewrite append_cons, IH.
Qed.

Lemma concat_empty_cons (x : string) (l : list string) :
  String.concat "" (x :: l) = x ++ String.concat "" l.
Proof. destruct l; simpl; [by rewrite append_empty_r | reflexivity]. Qed.

Lemma concat_empty_app (l l' : list string) :
  String.concat "" (l ++ l')%list = String.concat "" l ++ String.concat "" l'.
Proof.
  induction l as [|x l IH]; [reflexivity |].
  rewrite <- app_comm_cons, !concat_empty_cons, IH. by rewrite append_assoc.
Qed.

Lemma concat_sep_cons (sep x : string) (l : list string) :
  String.concat sep (x :: l)
  = x ++ String.concat "" (map (String.append sep) l).
Proof.
  revert x. induction l as [|y l IH]; intros x.
  - simpl. by rewrite append_empty_r.
  - change (String.concat sep (x :: y :: l))
      with (x ++ sep ++ String.concat sep (y :: l)).
    rewrite IH. rewrite map_cons, concat_empty_cons. by rewrite append_assoc.
Qed.

End Text.

(** ** The Python entry point builds the shapes and the type names side by
    side *)

Lemma fold_left_snoc {A} (l acc : list A) :
  fold_left (λ target e, target ++ [e])%list l acc = (acc ++ l)%list.
Proof.
  revert acc. induction l as [|x l IH]; intros acc; simpl.
  - by rewrite app_nil_r.
  - rewrite IH. by rewrite <- app_assoc.
Qed.

Lemma unpack_shapes_split (l : list (string * list Z)) :
  unpack_shapes l = (map snd l, map fst l).
Proof.
  unfold unpack_shapes.
  enough (H : ∀ s t, fold_left
    (λ '(shapes, types) '(dtype, nested),
       ((shapes ++ [fold_left (λ target e, target ++ [e]) nested []])%list,
        (types ++ [dtype])%list)) l (s, t)
    = ((s ++ map snd l)%list, (t ++ map fst l)%list)) by apply H.
  induction l as [|[dtype nested] l IH]; intros s t; simpl.
  - by rewrite !app_nil_r.
  - rewrite IH, fold_left_snoc. simpl. by rewrite <- !app_assoc.
Qed.

(** ** The synthesized text *)

Lemma make_type_spec name shape constv :
  CpuKernel.make_type name shape constv
  = (if constv then "const " else "") ++ tensor_type (name, shape).
Proof.
  unfold CpuKernel.make_type, tensor_type. simpl fst; simpl snd.
  rewrite concat_sep_cons.
  assert (H : ∀ s,
    fold_left (λ s v, s ++ (", " ++ to_string v)) shape s
    = s ++ String.concat "" (map (String.append ", ") (map to_string shape))).
  { induction shape as [|v shape IH]; intros s.
    - simpl. by rewrite append_empty_r.
    - simpl fold_left. rewrite IH, !map_cons, concat_empty_cons.
      by rewrite !append_assoc. }
  rewrite H. by rewrite !append_assoc.
Qed.

(** A loop whose body appends one piece per element appends the pieces in
    order. *)
Lemma for_loop_append {D} (piece : nat → D → string)
    (body : nat → string → option string) (ds : list D) :
  ∀ i ss,
    (∀ j d ss', ds !! j = Some d →
       body (i + j)%nat ss' = Some (ss' ++ piece (i + j)%nat d)) →
    for_loop (length ds) i body ss
    = Some (ss ++ String.concat "" (imap (λ j, piece (i + j)%nat) ds)).
Proof.
  induction ds as [|d ds IH]; intros i ss H.
  - simpl. by rewrite append_empty_r.
  - simpl for_loop. specialize (H 0%nat d ss eq_refl) as H0.
    rewrite Nat.add_0_r in H0.
    rewrite H0. cbn [mbind option_bind]. rewrite IH.
    + rewrite imap_cons, concat_empty_cons, Nat.add_0_r, append_assoc.
      do 4 f_equal.
      apply imap_ext. intros j x _. simpl. f_equal. lia.
    + intros j d' ss' Hj. replace (S i + j)%nat with (i + S j)%nat by lia.
      by apply H.
Qed.

Lemma out_statements_loop (outputs : list Descriptor) ss :
  for_loop (length (map snd outputs)) 0
    (CpuKernel.out_statement_body (map snd outputs) (map fst outputs)) ss
  = Some (ss ++ String.concat "" (imap output_reinterpretation outputs)).
Proof.
  rewrite length_map.
  rewrite (for_loop_append output_reinterpretation); [reflexivity |].
  intros j [name shape] ss' Hj. unfold CpuKernel.out_statement_body.
  rewrite !Nat.add_0_l, !list_lookup_fmap, Hj.
  cbn [fmap option_fmap option_map mbind option_bind fst snd].
  unfold output_reinterpretation.
  rewrite !make_type_spec. rewrite !append_assoc. reflexivity.
Qed.

Lemma in_statements_loop (inputs : list Descriptor) ss :
  for_loop (length (map snd inputs)) 0
    (CpuKernel.in_statement_body (map snd inputs) (map fst inputs)) ss
  = Some (ss ++ String.concat "" (imap input_reinterpretation inputs)).
Proof.
  rewrite length_map.
  rewrite (for_loop_append input_reinterpretation); [reflexivity |].
  intros j [name shape] ss' Hj. unfold CpuKernel.in_statement_body.
  rewrite !Nat.add_0_l, !list_lookup_fmap, Hj.
  cbn [fmap option_fmap option_map mbind option_bind fst snd].
  unfold input_reinterpretation.
  rewrite !make_type_spec. rewrite !append_assoc. reflexivity.
Qed.


Lemma imap_numbered {D} (prefix : string) (ds : list D) :
  imap (λ i _, prefix ++ size_to_string i) ds = numbered prefix 0 (length ds).
Proof.
  unfold numbered.
  enough (H : ∀ k,
    imap (λ i _, prefix ++ size_to_string (k + i)) ds
    = map (λ j : nat, prefix ++ size_to_string j) (seq k (length ds)))
    by apply (H 0%nat).
  induction ds as [|d ds IH]; intros k; [reflexivity |].
  rewrite imap_cons. simpl. rewrite Nat.add_0_r. f_equal. rewrite <- IH.
  apply imap_ext. intros j x _. simpl. do 2 f_equal. lia.
Qed.

Lemma numbered_S prefix i n :
  numbered prefix i (S n)
  = (prefix ++ size_to_string i) :: numbered prefix (S i) n.
Proof. reflexivity. Qed.

Lemma argument_loop_comma prefix n : ∀ i ss,
  for_loop n i (CpuKernel.argument_body prefix) (ss, true)
  = Some (ss ++ String.concat ""
                  (map (String.append ", ") (numbered prefix i n)), true).
Proof.
  induction n as [|n IH]; intros i ss.
  - simpl. by rewrite append_empty_r.
  - simpl for_loop. cbn [CpuKernel.argument_body mbind option_bind].
    rewrite IH, numbered_S, map_cons, concat_empty_cons.
    by rewrite !append_assoc.
Qed.

Lemma argument_loop_first prefix n i ss :
  for_loop (S n) i (CpuKernel.argument_body prefix) (ss, false)
  = Some (ss ++ String.concat ", " (numbered prefix i (S n)), true).
Proof.
  simpl for_loop. cbn [CpuKernel.argument_body mbind option_bind].
  rewrite argument_loop_comma, numbered_S, concat_sep_cons.
  by rewrite !append_assoc.
Qed.

Lemma argument_loops {B} prefix1 prefix2 m n ss (k : string * bool → option B) :
  (for_loop m 0 (CpuKernel.argument_body prefix1) (ss, false)
     ≫= λ '(ss, comma),
          for_loop n 0 (CpuKernel.argument_body prefix2) (ss, comma) ≫= k)
  = k (ss ++ String.concat ", "
               (numbered prefix1 0 m ++ numbered prefix2 0 n)%list,
       bool_decide (m ≠ 0 ∨ n ≠ 0)%nat).
Proof.
  destruct m as [|m].
  - simpl for_loop. cbn [mbind option_bind]. destruct n as [|n].
    + simpl. by rewrite append_empty_r.
    + by rewrite argument_loop_first.
  - rewrite argument_loop_first. cbn [mbind option_bind].
    rewrite argument_loop_comma. cbn [mbind option_bind].
    rewrite bool_decide_eq_true_2 by (left; lia).
    rewrite numbered_S, <- app_comm_cons.
    rewrite !concat_sep_cons, map_app, concat_empty_app.
    by rewrite !append_assoc.
Qed.

Lemma input_translation_unit source (outputs inputs : list Descriptor) :
  CpuKernel.input source (map snd outputs) (map fst outputs)
    (map snd inputs) (map fst inputs)
  = Some (translation_unit source
            (entry_function (reinterpretations outputs inputs)
               (call_statement "myfn" (call_arguments outputs inputs)))).
Proof.
  unfold CpuKernel.input.
  rewrite out_statements_loop. cbn [mbind option_bind].
  rewrite in_statements_loop. cbn [mbind option_bind].
  rewrite argument_loops. rewrite !length_map.
  unfold translation_unit, entry_function, call_statement, reinterpretations,
    call_arguments.
  rewrite !imap_numbered, concat_empty_app.
  rewrite !append_assoc. reflexivity.
Qed.

(** ** One call of [create] *)

(** Runs the monadic code of [create] down to its case distinctions. *)
Ltac run_create :=
  cbv [CpuKernel.create CpuKernel.bind CpuKernel.ret CpuKernel.throw
    CpuKernel.gets CpuKernel.modify CpuKernel.checked
    CpuKernel.post_increment_last_identifier CpuKernel.createJITDylib
    CpuKernel.set_DL CpuKernel.set_JIT CpuKernel.set_kernels
    CpuKernel.kernels CpuKernel.last_identifier CpuKernel.DL CpuKernel.JIT].

Section Create.

Import CpuKernel.

Lemma int64_small (z : Z) : - 2 ^ 63 ≤ z < 2 ^ 63 → int64 z = z.
Proof. intros H. unfold int64. rewrite Z.mod_small; lia. Qed.

Lemma try_emplace_lookup (m : gmap Z t) key value k :
  try_emplace key value m !! k
  = match m !! k with
    | Some old => Some old
    | None => if decide (key = k) then Some value else None
    end.
Proof.
  unfold try_emplace. destruct (m !! key) eqn:Hkey.
  - destruct (m !! k) eqn:Hk; [done |]. case_decide; congruence.
  - rewrite lookup_insert. case_decide; subst.
    + by rewrite Hkey.
    + by destruct (m !! k).
Qed.

(** What every call does to the counter and to the map. *)
Lemma create_steps T source os on is_ in_ argv st res st' :
  create T source os on is_ in_ argv st = (res, st') →
  last_identifier st' = int64 (last_identifier st + 1)
  ∧ match res with
    | Return k =>
        k = last_identifier st
        ∧ ∃ entry,
            kernels st' = try_emplace k (CpuKernel k os entry) (kernels st)
    | _ => kernels st' = kernels st
    end.
Proof.
  run_create. intros H.
  repeat case_match; simplify_eq; cbn [kernels last_identifier DL JIT]; eauto.
Qed.

Lemma serve_create r :
  serve r
  = create (toolchain r) (source r)
      (map snd (py_out_shapes r)) (map fst (py_out_shapes r))
      (map snd (py_in_shapes r)) (map fst (py_in_shapes r)) (pyargv r).
Proof.
  unfold serve, create_enzyme_cpu_kernel. by rewrite !unpack_shapes_split.
Qed.

Lemma compile_step_text r :
  compile_step r
  = GetLLVMFromJob (toolchain r) "/enzyme_call/source.cpp"
      (translation_unit (source r)
         (entry_function
            (reinterpretations (py_out_shapes r) (py_in_shapes r))
            (call_statement "myfn"
               (call_arguments (py_out_shapes r) (py_in_shapes r)))))
      true (pyargv r).
Proof.
  unfold compile_step. rewrite !unpack_shapes_split.
  by rewrite input_translation_unit.
Qed.

(** A valid request returns the identifier it allocated. *)
Lemma serve_succeeds r st :
  succeeds r st = true →
  ∃ st', serve r st = (Return (last_identifier st), st').
Proof.
  unfold succeeds. rewrite compile_step_text, serve_create.
  unfold engine_step, link_step, resolve_step, dylib_name.
  run_create. rewrite input_translation_unit.
  intros H. repeat case_match; simplify_eq/=; eauto;
    repeat match goal with
    | H : _ && _ = true |- _ => apply andb_prop in H as [? ?]
    | H : bool_decide _ = true |- _ => apply bool_decide_eq_true_1 in H
    | H : is_Some None |- _ => by destruct H
    end; simplify_eq/=; try congruence.
  all: try by match goal with H : is_Some None |- _ => destruct H end.
Qed.

(** Otherwise the call throws and the map is as before. *)
Lemma serve_fails r st :
  succeeds r st = false →
  ∃ what st',
    serve r st = (value_error what, st') ∧ kernels st' = kernels st.
Proof.
  unfold succeeds. rewrite compile_step_text, serve_create.
  unfold engine_step, link_step, resolve_step, dylib_name.
  run_create. rewrite input_translation_unit.
  intros H. repeat case_match; simplify_eq/=; eauto.
  all: exfalso; revert H;
    rewrite ?bool_decide_eq_true_2 by eauto; simpl; congruence.
Qed.

(** A call through the Python entry point never reads out of bounds. *)
Lemma serve_in_bounds r st : (serve r st).1 ≠ OutOfBounds.
Proof.
  destruct (succeeds r st) eqn:H.
  - apply serve_succeeds in H as [st' ->]. done.
  - apply serve_fails in H as (what & st' & -> & _). done.
Qed.

Lemma serve_steps r st res st' :
  serve r st = (res, st') →
  last_identifier st' = int64 (last_identifier st + 1)
  ∧ match res with
    | Return k =>
        k = last_identifier st
        ∧ ∃ entry,
            kernels st'
            = try_emplace k (CpuKernel k (map snd (py_out_shapes r)) entry)
                (kernels st)
    | _ => kernels st' = kernels st
    end.
Proof. rewrite serve_create. apply create_steps. Qed.

End Create.

(** ** Histories *)

Section Histories.

Import CpuKernel.

Lemma run_cons r rs st :
  run (r :: rs) st
  = ({| allocated := last_identifier st; outcome := (serve r st).1 |}
       :: (run rs (serve r st).2).1,
     (run rs (serve r st).2).2).
Proof.
  cbn [run]. destruct (serve r st) as [res st']. cbn [fst snd].
  by destruct (run rs st').
Qed.

Lemma run_length rs st : length (run rs st).1 = length rs.
Proof.
  revert st. induction rs as [|r rs IH]; intros st; [done |].
  rewrite run_cons. simpl. by rewrite IH.
Qed.

(** While the counter does not overflow, call number [i] allocates the
    [i]-th value after the first. *)
Lemma run_allocated rs : ∀ st i e,
  - 2 ^ 63 ≤ last_identifier st →
  last_identifier st + Z.of_nat (length rs) ≤ 2 ^ 63 →
  (run rs st).1 !! i = Some e →
  allocated e = last_identifier st + Z.of_nat i.
Proof.
  induction rs as [|r rs IH]; intros st i e Hlo Hhi Hi; [done |].
  rewrite run_cons in Hi. destruct i as [|i].
  - simplify_eq/=. lia.
  - cbn [fst] in Hi. rewrite lookup_cons in Hi.
    destruct (serve r st) as [res st'] eqn:Hserve.
    apply serve_steps in Hserve as [Hnext _]. cbn [snd] in Hi.
    assert (Hrs : (0 < length rs)%nat).
    { apply lookup_lt_Some in Hi. rewrite run_length in Hi. lia. }
    simpl length in Hhi.
    rewrite int64_small in Hnext by lia.
    rewrite (IH st' i e); rewrite ?Hnext; try done; lia.
Qed.

Lemma run_last_identifier rs : ∀ st,
  - 2 ^ 63 ≤ last_identifier st →
  last_identifier st + Z.of_nat (length rs) < 2 ^ 63 →
  last_identifier (run rs st).2 = last_identifier st + Z.of_nat (length rs).
Proof.
  induction rs as [|r rs IH]; intros st Hlo Hhi.
  - simpl. lia.
  - rewrite run_cons. cbn [snd]. simpl length in *.
    destruct (serve r st) as [res st'] eqn:Hserve.
    apply serve_steps in Hserve as [Hnext _]. cbn [snd].
    rewrite int64_small in Hnext by lia.
    rewrite IH; rewrite ?Hnext; lia.
Qed.

(** A call that returns, returns the identifier it allocated. *)
Lemma run_returned rs : ∀ st e k,
  e ∈ (run rs st).1 → outcome e = Return k → allocated e = k.
Proof.
  induction rs as [|r rs IH]; intros st e k He Hk.
  - simpl in He. by apply elem_of_nil in He.
  - rewrite run_cons in He. cbn [fst] in He.
    apply elem_of_cons in He as [-> | He]; [| by eapply IH].
    cbn [outcome allocated] in *.
    destruct (serve r st) as [res st'] eqn:Hserve.
    apply serve_steps in Hserve as [_ Hres]. cbn [fst] in Hk. subst res.
    by destruct Hres as [-> _].
Qed.

(** Records are never removed or replaced. *)
Lemma run_keeps rs : ∀ st k kernel,
  kernels st !! k = Some kernel → kernels (run rs st).2 !! k = Some kernel.
Proof.
  induction rs as [|r rs IH]; intros st k kernel Hk; [done |].
  rewrite run_cons. cbn [snd]. apply IH.
  destruct (serve r st) as [res st'] eqn:Hserve.
  apply serve_steps in Hserve as [_ Hres]. cbn [snd].
  destruct res as [k' | |]; [| congruence..].
  destruct Hres as [_ [entry ->]]. by rewrite try_emplace_lookup, Hk.
Qed.

(** Every key of the map was there at the start or was returned. *)
Lemma run_keys rs : ∀ st k,
  is_Some (kernels (run rs st).2 !! k) →
  is_Some (kernels st !! k) ∨ returned (run rs st).1 k.
Proof.
  induction rs as [|r rs IH]; intros st k Hk; [by left |].
  rewrite run_cons in *. cbn [fst snd] in *.
  destruct (IH _ _ Hk) as [Hst' | (e & He & Hret)].
  - destruct (serve r st) as [res st'] eqn:Hserve.
    apply serve_steps in Hserve as [_ Hres]. cbn [fst snd] in *.
    destruct res as [k' | |]; [| left; congruence..].
    destruct Hres as [-> [entry Hmap]].
    rewrite Hmap, try_emplace_lookup in Hst'.
    destruct (kernels st !! k) eqn:Hold; [by left |].
    case_decide; [| by destruct Hst'].
    subst k. right. eexists. split; [apply list_elem_of_here | done].
  - right. exists e. split; [by apply list_elem_of_further | done].
Qed.

End Histories.

(** ** The identifier counter *)

Section Identifiers.

Import CpuKernel.

(** In a history that stays within [int64_t], call number [i] allocates
    [1 + i]. *)
Lemma history_allocated rs i e :
  Z.of_nat (length rs) ≤ INT64_MAX →
  (run rs initial).1 !! i = Some e →
  allocated e = 1 + Z.of_nat i.
Proof.
  unfold INT64_MAX. intros Hlen Hi.
  by rewrite (run_allocated rs initial i e); cbn [initial last_identifier];
    try lia.
Qed.

Lemma history_last_identifier rs :
  Z.of_nat (length rs) < INT64_MAX →
  last_identifier (run rs initial).2 = 1 + Z.of_nat (length rs).
Proof.
  unfold INT64_MAX. intros Hlen.
  by rewrite run_last_identifier; cbn [initial last_identifier]; try lia.
Qed.

Lemma history_returned rs i e k :
  (run rs initial).1 !! i = Some e → outcome e = Return k → allocated e = k.
Proof.
  intros Hi Hk. eapply run_returned; [| done].
  eapply list_elem_of_lookup_2, Hi.
Qed.

(** C1. Identifier allocation: in a history of calls that stays within
    [int64_t], a call that returns, returns the identifier it allocated;
    the first call allocates identifier 1; a call that returns, returns an
    identifier strictly greater than the identifier of every earlier call,
    failed or not; two calls never return the same identifier; and the
    identifier of a failed call is used up: the next call allocates the
    one after it and no call ever returns it. *)
Theorem create_identifiers_increase (rs : list Request) :
  Z.of_nat (length rs) ≤ INT64_MAX →
  let log := (run rs initial).1 in
  (∀ i e k, log !! i = Some e → outcome e = Return k → k = allocated e)
  ∧ (∀ e, log !! 0%nat = Some e → allocated e = 1)
  ∧ (∀ i j ei ej k,
       (i < j)%nat → log !! i = Some ei → log !! j = Some ej →
       outcome ej = Return k →
       allocated ei < k ∧ (∀ k', outcome ei = Return k' → k' < k))
  ∧ (∀ i j ei ej ki kj,
       i ≠ j → log !! i = Some ei → log !! j = Some ej →
       outcome ei = Return ki → outcome ej = Return kj → ki ≠ kj)
  ∧ (∀ i ei what,
       log !! i = Some ei → outcome ei = value_error what →
       (∀ ej, log !! S i = Some ej → allocated ej = allocated ei + 1)
       ∧ ¬ returned log (allocated ei)).
Proof.
  intros Hlen log. repeat split.
  - intros i e k Hi Hk. symmetry. by apply (history_returned rs i).
  - intros e He. by rewrite (history_allocated rs 0 e).
  - rewrite <- (history_returned rs j ej k) by done.
    rewrite (history_allocated rs i ei), (history_allocated rs j ej) by done.
    lia.
  - intros k' Hk'.
    rewrite <- (history_returned rs j ej k) by done.
    rewrite <- (history_returned rs i ei k') by done.
    rewrite (history_allocated rs i ei), (history_allocated rs j ej) by done.
    lia.
  - intros i j ei ej ki kj Hij Hi Hj Hki Hkj.
    rewrite <- (history_returned rs j ej kj) by done.
    rewrite <- (history_returned rs i ei ki) by done.
    rewrite (history_allocated rs i ei), (history_allocated rs j ej) by done.
    lia.
  - intros ej Hj.
    rewrite (history_allocated rs i ei), (history_allocated rs (S i) ej)
      by done.
    lia.
  - intros (e & He & Hret).
    apply list_elem_of_lookup_1 in He as [j Hj].
    destruct (decide (i = j)) as [-> | Hij]; [congruence |].
    apply (history_returned rs j) in Hret; [| done].
    rewrite (history_allocated rs i ei), (history_allocated rs j e) in Hret
      by done.
    lia.
Qed.

(** The counter on the sample history: three calls, the first allocates
    identifier 1. *)
Lemma create_identifiers_increase_witness :
  Z.of_nat (length sample_history) ≤ INT64_MAX
  ∧ ∀ e, (run sample_history initial).1 !! 0%nat = Some e → allocated e = 1.
Proof.
  assert (H : Z.of_nat (length sample_history) ≤ INT64_MAX)
    by (vm_compute; discriminate).
  split; [exact H |].
  exact (proj1 (proj2 (create_identifiers_increase sample_history H))).
Defined.


End Identifiers.

(** ** The registry *)

Section Registry.

Import CpuKernel.

(** In a history that stays within [int64_t], the identifier about to be
    allocated was never returned and is not a key of the map. *)
Lemma history_fresh rs :
  Z.of_nat (length rs) < INT64_MAX →
  let k := last_identifier (run rs initial).2 in
  ¬ returned (run rs initial).1 k ∧ kernels (run rs initial).2 !! k = None.
Proof.
  intros Hlen k.
  assert (Hnot : ¬ returned (run rs initial).1 k).
  { intros (e & He & Hret). apply list_elem_of_lookup_1 in He as [i Hi].
    apply (history_returned rs i) in Hret; [| done].
    rewrite (history_allocated rs i e) in Hret by (done || lia).
    apply lookup_lt_Some in Hi. rewrite run_length in Hi.
    subst k. rewrite history_last_identifier in Hret by done. lia. }
  split; [done |].
  destruct (kernels (run rs initial).2 !! k) eqn:Hk; [| done].
  destruct (run_keys rs initial k) as [Hinit | Hret]; [by rewrite Hk | |].
  - cbn [initial kernels] in Hinit. rewrite lookup_empty in Hinit.
    by destruct Hinit.
  - done.
Qed.

(** C3. Creation-failure atomicity: when compilation or a later step of a
    call fails, the call throws and the map of kernels is as before the
    call; and a later valid call still returns: its identifier is the
    number of calls made so far plus one, was never returned before, was
    not a key of the map, and is one afterwards. *)
Theorem failed_create_leaves_registry
    (rs : list Request) (r : Request) (rs' : list Request) (r' : Request) :
  let st := (run rs initial).2 in
  let log' := (run (rs ++ r :: rs') initial).1 in
  let st' := (run (rs ++ r :: rs') initial).2 in
  let k := Z.of_nat (length (rs ++ r :: rs')) + 1 in
  k ≤ INT64_MAX →
  succeeds r st = false →
  succeeds r' st' = true →
  (∃ what st1,
     serve r st = (value_error what, st1) ∧ kernels st1 = kernels st)
  ∧ (∃ st2,
       serve r' st' = (Return k, st2)
       ∧ ¬ returned log' k
       ∧ get k st' = None
       ∧ is_Some (get k st2)).
Proof.
  intros st log' st' k Hk Hfails Hvalid. split; [by apply serve_fails |].
  assert (Hlen : Z.of_nat (length (rs ++ r :: rs')) < INT64_MAX) by lia.
  destruct (history_fresh _ Hlen) as [Hnot Hnone].
  rewrite history_last_identifier in Hnot, Hnone by done.
  apply serve_succeeds in Hvalid as [st2 Hserve].
  unfold st' in Hserve. rewrite history_last_identifier in Hserve by done.
  replace (1 + Z.of_nat (length (rs ++ r :: rs'))) with k in * by (unfold k; lia).
  exists st2. repeat split; try done.
  apply serve_steps in Hserve as [_ [_ [entry Hmap]]].
  unfold get. rewrite Hmap, try_emplace_lookup.
  rewrite Hnone. by rewrite decide_True.
Qed.

(** On the host with two targets: the call with the broken text throws and
    leaves the map alone, and the next call returns identifier 3. *)
Lemma failed_create_leaves_registry_witness :
  let rs := [copy_request ["riscv64"]] in
  let st := (run rs initial).2 in
  let st' := (run (rs ++ [broken_request]) initial).2 in
  succeeds broken_request st = false
  ∧ succeeds (copy_request []) st' = true
  ∧ (∃ what st1,
       serve broken_request st = (value_error what, st1)
       ∧ kernels st1 = kernels st)
  ∧ ∃ st2,
      serve (copy_request []) st' = (Return 3, st2)
      ∧ ¬ returned (run (rs ++ [broken_request]) initial).1 3
      ∧ get 3 st' = None
      ∧ is_Some (get 3 st2).
Proof.
  intros rs st st'.
  assert (H1 : succeeds broken_request st = false) by (vm_compute; reflexivity).
  assert (H2 : succeeds (copy_request []) st' = true)
    by (vm_compute; reflexivity).
  split; [exact H1 |]. split; [exact H2 |].
  apply (failed_create_leaves_registry rs broken_request [] (copy_request []));
    [vm_compute; discriminate | exact H1 | exact H2].
Defined.


(** C4. Registration round trip: when a call returns the identifier [k],
    then after any further calls [get k] finds a kernel, and its output
    shapes are the ones given to that call. *)
Theorem get_after_create
    (rs : list Request) (r : Request) (rs' : list Request)
    (k : Z) (st1 : State) :
  Z.of_nat (length rs) < INT64_MAX →
  serve r (run rs initial).2 = (Return k, st1) →
  ∃ kernel,
    get k (run rs' st1).2 = Some kernel
    ∧ out_shapes kernel = map snd (py_out_shapes r)
    ∧ identifier kernel = k.
Proof.
  intros Hlen Hserve.
  destruct (history_fresh _ Hlen) as [_ Hnone].
  apply serve_steps in Hserve as [_ [-> [entry Hmap]]].
  eexists. split.
  - apply run_keeps. rewrite Hmap, try_emplace_lookup, Hnone.
    by rewrite decide_True.
  - done.
Qed.

(** The kernel created third is found under identifier 3 after a further
    call, with the shape it was created with. *)
Lemma get_after_create_witness :
  let rs := [copy_request ["riscv64"]; broken_request] in
  let st := (run rs initial).2 in
  let st1 := (serve (copy_request []) st).2 in
  serve (copy_request []) st = (Return 3, st1)
  ∧ ∃ kernel,
      get 3 (run [copy_request ["riscv64"]] st1).2 = Some kernel
      ∧ out_shapes kernel = [[4]]
      ∧ identifier kernel = 3.
Proof.
  intros rs st st1.
  assert (H : serve (copy_request []) st = (Return 3, st1))
    by (vm_compute; reflexivity).
  split; [exact H |].
  apply (get_after_create rs (copy_request []) [copy_request ["riscv64"]]
           3 st1); [vm_compute; reflexivity | exact H].
Defined.


(** C6. Unknown identifier: for an identifier that is not one of the two
    keys the map keeps for itself, when [get] finds no kernel for the
    identifier read through [ins[0]], [CpuCallback] ends the process with a
    fatal error and calls nothing; and [get] finds no kernel for such an
    identifier when no call of the history returned it. *)
Theorem unknown_identifier_is_fatal
    (rs : list Request) (mem : Memory) (out ins ins_0 word : Z) :
  let log := (run rs initial).1 in
  let st := (run rs initial).2 in
  mem !! ins = Some ins_0 →
  mem !! ins_0 = Some word →
  DenseMap_reserved (int64 word) = false →
  (∀ st0, get (int64 word) st0 = None →
     CpuCallback st0 mem out ins
     = report_fatal_error "couldn't find enzyme kernel"
     ∧ ∀ c, CpuCallback st0 mem out ins ≠ Called c)
  ∧ (¬ returned log (int64 word) →
     get (int64 word) st = None
     ∧ CpuCallback st mem out ins
       = report_fatal_error "couldn't find enzyme kernel").
Proof.
  intros log st Hins Hword _.
  assert (Hfatal : ∀ st0, get (int64 word) st0 = None →
    CpuCallback st0 mem out ins
    = report_fatal_error "couldn't find enzyme kernel").
  { intros st0 Hget. unfold CpuCallback. by rewrite Hins, Hword, Hget. }
  split.
  - intros st0 Hget. split; [by apply Hfatal |].
    intros c. by rewrite Hfatal.
  - intros Hnot.
    assert (Hget : get (int64 word) st = None).
    { unfold get. destruct (kernels st !! int64 word) eqn:Hk; [| done].
      destruct (run_keys rs initial (int64 word)) as [Hinit | Hret];
        [by fold st; rewrite Hk | | done].
      cbn [initial kernels] in Hinit. rewrite lookup_empty in Hinit.
      by destruct Hinit. }
    split; [done | by apply Hfatal].
Qed.

(** Identifier 7 was never returned in the sample history: the callback
    ends the process. *)
Lemma unknown_identifier_is_fatal_witness :
  let st := (run sample_history initial).2 in
  sample_memory 7 !! 100 = Some 200
  ∧ sample_memory 7 !! 200 = Some 7
  ∧ DenseMap_reserved (int64 7) = false
  ∧ get (int64 7) st = None
  ∧ CpuCallback st (sample_memory 7) 300 100
    = report_fatal_error "couldn't find enzyme kernel".
Proof.
  intros st.
  assert (H1 : sample_memory 7 !! 100 = Some 200) by (vm_compute; reflexivity).
  assert (H2 : sample_memory 7 !! 200 = Some 7) by (vm_compute; reflexivity).
  assert (H3 : DenseMap_reserved (int64 7) = false)
    by (vm_compute; reflexivity).
  split; [exact H1 |]. split; [exact H2 |]. split; [exact H3 |].
  apply (proj2 (unknown_identifier_is_fatal sample_history (sample_memory 7)
                  300 100 200 7 H1 H2 H3)).
  intros (e & He & Hret). revert He Hret. vm_compute.
  intros He. repeat (apply elem_of_cons in He as [-> | He]); try discriminate.
  by apply elem_of_nil in He.
Defined.


End Registry.

(** ** The dispatcher *)

Section Dispatch.

Import CpuKernel.

(** C2. Dispatch on a registered identifier: [CpuCallback] reads the
    identifier from the memory that [ins[0]] points to, finds the kernel
    and calls its address with [ins + 1] as the inputs and, as the outputs,
    the address of the supplied pointer when the kernel has exactly one
    output shape, the supplied pointer itself, read as an array, when it
    has more than one. *)
Theorem callback_dispatches
    (st : State) (mem : Memory) (out ins ins_0 word : Z) (kernel : t) :
  mem !! ins = Some ins_0 →
  mem !! ins_0 = Some word →
  get (int64 word) st = Some kernel →
  ∃ outs_array,
    CpuCallback st mem out ins
    = Called {| fn := addr kernel; outs := outs_array;
                ins := ins + sizeof_pointer |}
    ∧ (length (out_shapes kernel) = 1%nat → outs_array = address_of out)
    ∧ ((1 < length (out_shapes kernel))%nat →
       outs_array = reinterpreted out).
Proof.
  intros Hins Hword Hget. unfold CpuCallback. rewrite Hins, Hword, Hget.
  unfold call. rewrite Z.mul_1_l. eexists. split; [reflexivity |].
  split; intros Hlen.
  - by rewrite Hlen.
  - by rewrite (proj2 (Nat.ltb_lt _ _) Hlen).
Qed.

(** Identifier 3 of the sample history has one output: the callback passes
    the address of [out] and [ins + 1]. *)
Lemma callback_dispatches_witness :
  let st := (run sample_history initial).2 in
  let kernel := {| identifier := 3; out_shapes := [[4]]; addr := 40960 |} in
  sample_memory 3 !! 100 = Some 200
  ∧ sample_memory 3 !! 200 = Some 3
  ∧ get (int64 3) st = Some kernel
  ∧ ∃ outs_array,
      CpuCallback st (sample_memory 3) 300 100
      = Called {| fn := 40960; outs := outs_array; ins := 108 |}
      ∧ (length (out_shapes kernel) = 1%nat → outs_array = address_of 300)
      ∧ ((1 < length (out_shapes kernel))%nat →
         outs_array = reinterpreted 300).
Proof.
  intros st kernel.
  assert (H1 : sample_memory 3 !! 100 = Some 200) by (vm_compute; reflexivity).
  assert (H2 : sample_memory 3 !! 200 = Some 3) by (vm_compute; reflexivity).
  assert (H3 : get (int64 3) st = Some kernel) by (vm_compute; reflexivity).
  split; [exact H1 |]. split; [exact H2 |]. split; [exact H3 |].
  exact (callback_dispatches st (sample_memory 3) 300 100 200 3 kernel
           H1 H2 H3).
Defined.


(** C8. No outputs: for a kernel without output shapes [call] passes the
    address of the supplied pointer, as it does for a kernel with one
    output shape; the pointer itself is passed as the array exactly when
    there is more than one output shape. *)
Theorem call_without_outputs (kernel : t) (out ins : Z) :
  (out_shapes kernel = [] →
   call kernel out ins
   = {| fn := addr kernel; outs := address_of out; ins := ins |}
   ∧ ∀ single, length (out_shapes single) = 1%nat →
       outs (call kernel out ins) = outs (call single out ins))
  ∧ (outs (call kernel out ins) = reinterpreted out
     ↔ (1 < length (out_shapes kernel))%nat).
Proof.
  unfold call. cbn [outs]. split.
  - intros ->. split; [reflexivity |]. intros single Hlen. by rewrite Hlen.
  - destruct (Nat.ltb_spec 1 (length (out_shapes kernel))) as [Hlt | Hge].
    + done.
    + split; [done | lia].
Qed.

(** A kernel without outputs is called with the address of [out]. *)
Lemma call_without_outputs_witness :
  let kernel := {| identifier := 5; out_shapes := []; addr := 4096 |} in
  out_shapes kernel = []
  ∧ call kernel 300 108
    = {| fn := 4096; outs := address_of 300; ins := 108 |}.
Proof.
  intros kernel.
  assert (H : out_shapes kernel = []) by reflexivity.
  split; [exact H |].
  exact (proj1 (proj1 (call_without_outputs kernel 300 108) H)).
Defined.


End Dispatch.

(** ** The engine *)

Section Engine.

Import CpuKernel.

(** C7, as the code has it. When the JIT cannot be built during a call,
    the call throws, [JIT] stays null and the map of kernels is as before;
    the next call tries to build it again, and returns an identifier
    whenever all its steps succeed, leaving a JIT behind. *)
Theorem jit_failure_is_retried
    (st : State) (r : Request) (module : LLVMModule) (r' : Request) :
  compile_step r = Some module →
  engine_step r st module = false →
  ∃ st1,
    serve r st = (value_error "failed to create jit", st1)
    ∧ JIT st1 = None
    ∧ kernels st1 = kernels st
    ∧ (succeeds r' st1 = true →
       ∃ st2,
         serve r' st1 = (Return (last_identifier st1), st2)
         ∧ is_Some (JIT st2)).
Proof.
  rewrite compile_step_text. unfold engine_step. intros Hcompile Hengine.
  destruct st as [ks next layout [jit |]]; cbn [JIT] in Hengine; [done |].
  eexists. split; [| split; [| split]].
  - rewrite serve_create. run_create. rewrite input_translation_unit.
    rewrite Hcompile, Hengine. reflexivity.
  - reflexivity.
  - reflexivity.
  - cbn [last_identifier]. intros Hvalid.
    pose proof Hvalid as Hserve. apply serve_succeeds in Hserve as [st2 Hserve].
    exists st2. split; [done |].
    revert Hserve. rewrite serve_create. run_create.
    rewrite input_translation_unit. intros Hserve.
    repeat case_match; simplify_eq/=; eauto.
Qed.

(** On the host with two targets, from the initial state: the call for
    the foreign target throws, and the JIT is still null. *)
Lemma jit_failure_is_retried_witness :
  let r := copy_request ["riscv64"] in
  let module := host_module "riscv64" in
  compile_step r = Some module
  ∧ engine_step r initial module = false
  ∧ ∃ st1,
      serve r initial = (value_error "failed to create jit", st1)
      ∧ JIT st1 = None
      ∧ kernels st1 = kernels initial
      ∧ (succeeds (copy_request []) st1 = true →
         ∃ st2,
           serve (copy_request []) st1 = (Return (last_identifier st1), st2)
           ∧ is_Some (JIT st2)).
Proof.
  intros r module.
  assert (H1 : compile_step r = Some module) by (vm_compute; reflexivity).
  assert (H2 : engine_step r initial module = false)
    by (vm_compute; reflexivity).
  split; [exact H1 |]. split; [exact H2 |].
  exact (jit_failure_is_retried initial r module (copy_request []) H1 H2).
Defined.


(** C7, as the specification has it, fails: on the host with two targets a
    first call for a target the JIT cannot be built for throws, and the next
    call, for the native target, returns identifier 2. *)
Lemma jit_failure_is_not_permanent :
  (run [copy_request ["riscv64"]; copy_request []] initial).1
  = [{| allocated := 1; outcome := value_error "failed to create jit" |};
     {| allocated := 2; outcome := Return 2 |}].
Proof. vm_compute. reflexivity. Qed.

End Engine.

(** ** The synthesizer *)

Section Synthesis.

(** C5. Source synthesis: for [m] outputs and [n] inputs the text is the
    translation unit whose entry function has the [m + n] reinterpretation
    statements, outputs as mutable references and then inputs as const
    references, each in declaration order, and calls [myfn] with the
    [m + n] arguments [out_0], ..., [out_(m-1)], [in_0], ..., [in_(n-1)]. *)
Theorem synthesized_source_shape
    (source : string) (outputs inputs : list Descriptor) :
  let body := reinterpretations outputs inputs in
  let arguments := call_arguments outputs inputs in
  CpuKernel.input source
    (unpack_shapes outputs).1 (unpack_shapes outputs).2
    (unpack_shapes inputs).1 (unpack_shapes inputs).2
  = Some (translation_unit source
            (entry_function body (call_statement "myfn" arguments)))
  ∧ length body = (length outputs + length inputs)%nat
  ∧ length arguments = (length outputs + length inputs)%nat
  ∧ (∀ i d, outputs !! i = Some d →
       body !! i = Some (output_reinterpretation i d)
       ∧ arguments !! i = Some ("out_" ++ size_to_string i))
  ∧ (∀ j d, inputs !! j = Some d →
       body !! (length outputs + j)%nat = Some (input_reinterpretation j d)
       ∧ arguments !! (length outputs + j)%nat
         = Some ("in_" ++ size_to_string j)).
Proof.
  intros body arguments. rewrite !unpack_shapes_split. cbn [fst snd].
  split; [apply input_translation_unit |].
  unfold body, arguments, reinterpretations, call_arguments.
  rewrite !length_app, !length_imap. repeat split.
  - rewrite lookup_app_l by (rewrite length_imap; by eapply lookup_lt_Some).
    by rewrite list_lookup_imap, H.
  - rewrite lookup_app_l by (rewrite length_imap; by eapply lookup_lt_Some).
    by rewrite list_lookup_imap, H.
  - rewrite lookup_app_r by (rewrite length_imap; lia).
    rewrite length_imap, Nat.add_comm, Nat.add_sub.
    by rewrite list_lookup_imap, H.
  - rewrite lookup_app_r by (rewrite length_imap; lia).
    rewrite length_imap, Nat.add_comm, Nat.add_sub.
    by rewrite list_lookup_imap, H.
Qed.

(** Two outputs and one input: the second statement binds [out_1], the
    third argument is [in_0]. *)
Lemma synthesized_source_shape_witness :
  let outputs := [("float", [4; 2]); ("int", [])] in
  let inputs := [("double", [3])] in
  outputs !! 1%nat = Some ("int", [])
  ∧ inputs !! 0%nat = Some ("double", [3])
  ∧ reinterpretations outputs inputs !! 1%nat
    = Some (output_reinterpretation 1 ("int", []))
  ∧ call_arguments outputs inputs !! 2%nat = Some "in_0".
Proof.
  intros outputs inputs.
  assert (H1 : outputs !! 1%nat = Some ("int", [])) by reflexivity.
  assert (H2 : inputs !! 0%nat = Some ("double", [3])) by reflexivity.
  split; [exact H1 |]. split; [exact H2 |].
  destruct (synthesized_source_shape "" outputs inputs)
    as (_ & _ & _ & Hout & Hin).
  split; [exact (proj1 (Hout 1%nat _ H1)) | exact (proj2 (Hin 0%nat _ H2))].
Defined.





End Synthesis.

(** * Further properties of the code *)

(** ** Decimal numerals *)

Section Numerals.

Lemma to_string_parses (v : Z) :
  NilZero.int_of_string (to_string v) = Some (Z.to_int v).
Proof.
  unfold to_string. apply NilZero.isi.
  - destruct v as [|p|p]; simpl; try discriminate.
    intros [= H]. by apply (DecimalPos.Unsigned.to_uint_nonnil p).
  - destruct v as [|p|p]; simpl; try discriminate.
    intros [= H]. by apply (DecimalPos.Unsigned.to_uint_nonnil p).
Qed.

Lemma to_string_inj (v w : Z) : to_string v = to_string w → v = w.
Proof.
  intros H. apply DecimalZ.to_int_inj.
  assert (Hp := to_string_parses v). rewrite H, to_string_parses in Hp.
  congruence.
Qed.

Lemma size_to_string_inj (i j : nat) :
  size_to_string i = size_to_string j → i = j.
Proof.
  unfold size_to_string. intros H. apply DecimalNat.Unsigned.to_uint_inj.
  assert (Hi : ∀ n, NilZero.uint_of_string
                      (NilZero.string_of_uint (Nat.to_uint n))
                    = Some (Nat.to_uint n)).
  { intros n. apply NilZero.usu. intros Hnil.
    assert (Hn : n = 0%nat)
      by (by rewrite <- (DecimalNat.Unsigned.of_to n), Hnil).
    by subst n. }
  assert (Hp := Hi i). rewrite H, Hi in Hp. congruence.
Qed.

Lemma append_inj_r (a b c : string) : a ++ b = a ++ c → b = c.
Proof.
  induction a as [|ch a IH]; [done |].
  rewrite !append_cons. intros [= H]. by apply IH.
Qed.

Lemma dylib_name_inj (k k' : Z) : dylib_name k = dylib_name k' → k = k'.
Proof. unfold dylib_name. intros H%append_inj_r. by apply to_string_inj. Qed.

End Numerals.

(** ** Bounds of the name arrays *)

Section Bounds.

Import CpuKernel.

(** A loop one of whose iterations reads out of bounds ends out of
    bounds. *)
Lemma for_loop_fails {A} (body : nat → A → option A) (n : nat) :
  ∀ i j a,
    (i ≤ j < i + n)%nat → (∀ a', body j a' = None) →
    for_loop n i body a = None.
Proof.
  induction n as [|n IH]; intros i j a Hj Hnone; [lia |].
  simpl for_loop. destruct (body i a) as [a' |] eqn:Hbody; [| done].
  cbn [mbind option_bind]. destruct (decide (i = j)) as [-> | Hij].
  - by rewrite Hnone in Hbody.
  - apply (IH (S i) j); [lia | done].
Qed.

Lemma out_statements_zip (shapes : list (list Z)) (names : list string) ss :
  (length shapes ≤ length names)%nat →
  for_loop (length shapes) 0 (out_statement_body shapes names) ss
  = Some (ss ++ String.concat ""
                  (imap output_reinterpretation (zip names shapes))).
Proof.
  intros Hlen.
  rewrite <- (length_zip_with_r pair names shapes) at 1 by done.
  rewrite (for_loop_append output_reinterpretation); [reflexivity |].
  intros j [name shape] ss' Hj. unfold out_statement_body. cbn [Nat.add].
  apply lookup_zip_with_Some in Hj as (? & ? & [= <- <-] & -> & ->).
  cbn [mbind option_bind]. unfold output_reinterpretation.
  rewrite !make_type_spec, !append_assoc. reflexivity.
Qed.

Lemma in_statements_zip (shapes : list (list Z)) (names : list string) ss :
  (length shapes ≤ length names)%nat →
  for_loop (length shapes) 0 (in_statement_body shapes names) ss
  = Some (ss ++ String.concat ""
                  (imap input_reinterpretation (zip names shapes))).
Proof.
  intros Hlen.
  rewrite <- (length_zip_with_r pair names shapes) at 1 by done.
  rewrite (for_loop_append input_reinterpretation); [reflexivity |].
  intros j [name shape] ss' Hj. unfold in_statement_body. cbn [Nat.add].
  apply lookup_zip_with_Some in Hj as (? & ? & [= <- <-] & -> & ->).
  cbn [mbind option_bind]. unfold input_reinterpretation.
  rewrite !make_type_spec, !append_assoc. reflexivity.
Qed.

Lemma out_statements_short (shapes : list (list Z)) (names : list string) ss :
  (length names < length shapes)%nat →
  for_loop (length shapes) 0 (out_statement_body shapes names) ss = None.
Proof.
  intros Hlen. apply (for_loop_fails _ _ 0%nat (length names)); [lia |].
  intros a'. unfold out_statement_body.
  by rewrite (lookup_ge_None_2 names (length names)).
Qed.

Lemma in_statements_short (shapes : list (list Z)) (names : list string) ss :
  (length names < length shapes)%nat →
  for_loop (length shapes) 0 (in_statement_body shapes names) ss = None.
Proof.
  intros Hlen. apply (for_loop_fails _ _ 0%nat (length names)); [lia |].
  intros a'. unfold in_statement_body.
  by rewrite (lookup_ge_None_2 names (length names)).
Qed.

(** The text for names that are at least as many as the shapes. *)
Lemma input_zip
    (source : string) (out_shapes : list (list Z)) (out_names : list string)
    (in_shapes : list (list Z)) (in_names : list string) :
  (length out_shapes ≤ length out_names)%nat →
  (length in_shapes ≤ length in_names)%nat →
  let outputs := zip out_names out_shapes in
  let inputs := zip in_names in_shapes in
  input source out_shapes out_names in_shapes in_names
  = Some (translation_unit source
            (entry_function (reinterpretations outputs inputs)
               (call_statement "myfn" (call_arguments outputs inputs)))).
Proof.
  intros Hout Hin outputs inputs. unfold input.
  rewrite out_statements_zip by done. cbn [mbind option_bind].
  rewrite in_statements_zip by done. cbn [mbind option_bind].
  rewrite argument_loops.
  unfold translation_unit, entry_function, call_statement, reinterpretations,
    call_arguments, outputs, inputs.
  rewrite !imap_numbered, !length_zip_with_r, concat_empty_app by done.
  rewrite !append_assoc. reflexivity.
Qed.

(** X3. When the names are at least as many as the shapes, the text that
    [create] writes pairs each shape with the name at the same index and
    ignores the names beyond the last shape. *)
Theorem input_uses_leading_names
    (source : string) (out_shapes : list (list Z)) (out_names : list string)
    (in_shapes : list (list Z)) (in_names : list string) :
  (length out_shapes ≤ length out_names)%nat →
  (length in_shapes ≤ length in_names)%nat →
  let outputs := zip out_names out_shapes in
  let inputs := zip in_names in_shapes in
  input source out_shapes out_names in_shapes in_names
  = Some (translation_unit source
            (entry_function (reinterpretations outputs inputs)
               (call_statement "myfn" (call_arguments outputs inputs)))).
Proof. apply input_zip. Qed.

(** One shape and two names: the second name does not appear. *)
Lemma input_uses_leading_names_witness :
  (length [[4]] ≤ length ["float"; "double"])%nat
  ∧ (length (@nil (list Z)) ≤ length (@nil string))%nat
  ∧ input "" [[4]] ["float"; "double"] [] []
    = Some (translation_unit ""
              (entry_function (reinterpretations [("float", [4])] [])
                 (call_statement "myfn" (call_arguments [("float", [4])] [])))).
Proof.
  assert (H1 : (length [[4]] ≤ length ["float"; "double"])%nat)
    by (simpl; lia).
  assert (H2 : (length (@nil (list Z)) ≤ length (@nil string))%nat)
    by (simpl; lia).
  split; [exact H1 |]. split; [exact H2 |].
  exact (input_uses_leading_names "" [[4]] ["float"; "double"] [] [] H1 H2).
Defined.

(** The text is missing exactly when a names array is too short. *)
Lemma input_out_of_bounds
    (source : string) (out_shapes : list (list Z)) (out_names : list string)
    (in_shapes : list (list Z)) (in_names : list string) :
  input source out_shapes out_names in_shapes in_names = None
  ↔ (length out_names < length out_shapes)%nat
    ∨ (length in_names < length in_shapes)%nat.
Proof.
  split.
  - intros Hnone.
    destruct (decide (length out_shapes ≤ length out_names)%nat);
      [| left; lia].
    destruct (decide (length in_shapes ≤ length in_names)%nat);
      [| right; lia].
    by rewrite input_zip in Hnone.
  - unfold input. intros [Hout | Hin].
    + by rewrite out_statements_short.
    + destruct (for_loop (length out_shapes) 0 _ _); [| done].
      cbn [mbind option_bind]. by rewrite in_statements_short.
Qed.

(** X2. [create] reads past the end of an array exactly when [out_names]
    is shorter than [out_shapes] or [in_names] is shorter than
    [in_shapes]; its loops are bounded by the shapes and index the names
    unchecked. *)
Theorem create_out_of_bounds_iff
    (T : Toolchain) (source : string)
    (out_shapes : list (list Z)) (out_names : list string)
    (in_shapes : list (list Z)) (in_names : list string)
    (argv : PyArgv) (st : State) :
  (create T source out_shapes out_names in_shapes in_names argv st).1
  = OutOfBounds
  ↔ (length out_names < length out_shapes)%nat
    ∨ (length in_names < length in_shapes)%nat.
Proof.
  rewrite <- (input_out_of_bounds source). run_create.
  destruct (input source out_shapes out_names in_shapes in_names).
  - split; [| done]. repeat case_match; simplify_eq/=; done.
  - done.
Qed.

(** One shape and no name: the read of [out_names[0]] is out of bounds. *)
Lemma create_out_of_bounds_iff_witness :
  (length (@nil string) < length [[4]])%nat
  ∧ (create host_toolchain "" [[4]] [] [] [] [] initial).1 = OutOfBounds.
Proof.
  assert (H : (length (@nil string) < length [[4]])%nat) by (simpl; lia).
  split; [exact H |].
  exact (proj2 (create_out_of_bounds_iff host_toolchain "" [[4]] [] [] [] []
                  initial) (or_introl H)).
Defined.

End Bounds.

(** ** The text, once more *)

Section TextExtras.

Import CpuKernel.

(** X1. [make_type] renders the element type and the extents, separated by
    a comma and a space, between [enzyme::tensor<] and [>], with [const ]
    in front exactly when [constv] is set; without extents no comma is
    written. *)
Theorem make_type_renders (typenam : string) (shape : list Z) (constv : bool) :
  make_type typenam shape constv
  = (if constv then "const " else "") ++ "enzyme::tensor<"
      ++ String.concat ", " (typenam :: map to_string shape) ++ ">".
Proof. apply make_type_spec. Qed.

(** X4. The loops of the Python entry point push one shape and one type name
    per element, in order: the two arrays handed to [create] are the second
    and the first components of the list and have its length. *)
Theorem entry_point_unpacks_in_order (py_shapes : list (string * list Z)) :
  unpack_shapes py_shapes = (map snd py_shapes, map fst py_shapes)
  ∧ length (unpack_shapes py_shapes).1 = length py_shapes
  ∧ length (unpack_shapes py_shapes).2 = length py_shapes.
Proof.
  rewrite unpack_shapes_split. cbn [fst snd]. by rewrite !length_map.
Qed.

(** X5. A call through the Python entry point never reads past the end of an
    array, whatever the lists are. *)
Theorem entry_point_stays_in_bounds
    (T : Toolchain) (source : string)
    (py_out_shapes py_in_shapes : list (string * list Z))
    (argv : PyArgv) (st : State) :
  (create_enzyme_cpu_kernel T source py_out_shapes py_in_shapes argv st).1
  ≠ OutOfBounds.
Proof.
  exact (serve_in_bounds
           {| toolchain := T; source := source;
              py_out_shapes := py_out_shapes; py_in_shapes := py_in_shapes;
              pyargv := argv |} st).
Qed.

Lemma numbered_lookup prefix i n j name :
  numbered prefix i n !! j = Some name →
  name = prefix ++ size_to_string (i + j) ∧ (j < n)%nat.
Proof.
  unfold numbered. rewrite list_lookup_fmap.
  destruct (seq i n !! j) as [k |] eqn:Hk; [| done].
  apply lookup_seq in Hk as [-> Hj]. by intros [= <-].
Qed.

(** X16. The variables that the entry function declares and passes to
    [myfn] are pairwise distinct. *)
Theorem entry_variables_are_distinct
    (source : string) (outputs inputs : list Descriptor) :
  input source
    (unpack_shapes outputs).1 (unpack_shapes outputs).2
    (unpack_shapes inputs).1 (unpack_shapes inputs).2
  = Some (translation_unit source
            (entry_function (reinterpretations outputs inputs)
               (call_statement "myfn" (call_arguments outputs inputs))))
  ∧ NoDup (call_arguments outputs inputs).
Proof.
  split.
  { rewrite !unpack_shapes_split. apply input_translation_unit. }
  unfold call_arguments. rewrite !imap_numbered.
  apply NoDup_alt. intros a b name Ha Hb.
  apply lookup_app_Some in Ha as [Ha | [Hla Ha]];
    apply lookup_app_Some in Hb as [Hb | [Hlb Hb]];
    apply numbered_lookup in Ha as [-> Ha'];
    apply numbered_lookup in Hb as [Hb Hb'].
  - apply append_inj_r, size_to_string_inj in Hb. lia.
  - discriminate Hb.
  - discriminate Hb.
  - apply append_inj_r, size_to_string_inj in Hb. lia.
Qed.

End TextExtras.

(** ** How a call ends *)

Section Outcomes.

Import CpuKernel.

(** The outcome and the state of a call, by the first step that fails. *)
Lemma serve_eq r st :
  serve r st =
  match compile_step r with
  | None => (value_error "failed to compile C++", after_entry st)
  | Some module =>
      if engine_step r st module then
        if link_step r st module then
          match resolve_step r st with
          | Some entry =>
              (Return (last_identifier st),
               set_kernels
                 (try_emplace (last_identifier st)
                    (CpuKernel (last_identifier st)
                       (map snd (py_out_shapes r)) entry) (kernels st))
                 (after_engine st module))
          | None =>
              (value_error "failed to lookup function called 'entry'",
               after_engine st module)
          end
        else (value_error "failed to add IR module", after_engine st module)
      else (value_error "failed to create jit",
            set_DL (data_layout module) (after_entry st))
  end.
Proof.
  rewrite compile_step_text, serve_create.
  unfold engine_step, link_step, resolve_step, dylib_name, after_engine,
    after_entry.
  destruct st as [ks next layout jit].
  run_create. rewrite input_translation_unit.
  repeat case_match; simplify_eq/=;
    repeat match goal with
    | H : negb ?b = _, H' : ?b = _ |- _ => rewrite H' in H; simpl in H
    end;
    done || congruence.
Qed.

(** X6. How a call ends, by the first step that fails: the compiler returns
    null, [failed to compile C++]; no JIT and the builder fails, [failed to
    create jit]; adding the module fails, [failed to add IR module]; [entry]
    is not found, [failed to lookup function called 'entry']; otherwise the
    call returns the value of [last_identifier] it read. *)
Theorem create_outcome_by_step (r : Request) (st : State) :
  (serve r st).1
  = match compile_step r with
    | None => value_error "failed to compile C++"
    | Some module =>
        if negb (engine_step r st module)
        then value_error "failed to create jit"
        else if negb (link_step r st module)
        then value_error "failed to add IR module"
        else match resolve_step r st with
             | None => value_error "failed to lookup function called 'entry'"
             | Some _ => Return (last_identifier st)
             end
    end.
Proof.
  rewrite serve_eq. destruct (compile_step r) as [module |]; [| done].
  destruct (engine_step r st module); [| done].
  destruct (link_step r st module); [| done].
  by destruct (resolve_step r st).
Qed.

(** X7. What a failed call leaves behind: the map of kernels is as before
    and the counter is one further; a compilation failure changes nothing
    else; a failure to build the JIT leaves [JIT] null but has set [DL] from
    the module; a failure to add the module or to find [entry] leaves the
    [JITDylib] of the call in the session. *)
Theorem failed_create_residue
    (r : Request) (st : State) (what : string) (st' : State) :
  serve r st = (value_error what, st') →
  kernels st' = kernels st
  ∧ last_identifier st' = int64 (last_identifier st + 1)
  ∧ (what = "failed to compile C++" → DL st' = DL st ∧ JIT st' = JIT st)
  ∧ (what = "failed to create jit" →
     JIT st = None ∧ JIT st' = None
     ∧ ∃ module,
         compile_step r = Some module ∧ DL st' = Some (data_layout module))
  ∧ (what = "failed to add IR module"
     ∨ what = "failed to lookup function called 'entry'" →
     ∃ J,
       JIT st' = Some J
       ∧ hd_error (dylibs J) = Some (dylib_name (last_identifier st))).
Proof.
  rewrite serve_eq. unfold engine_step.
  destruct (compile_step r) as [module |];
    [destruct (JIT st) as [J |] eqn:HJ;
     [| destruct (LLJITBuilder_create _ _ _)];
     [destruct (link_step r st module); [destruct (resolve_step r st) |] ..
     | ] |];
    intros [= <- <-]; unfold after_engine; rewrite ?HJ;
    (repeat split; try done; try (intros [? | ?]; done); eauto).
Qed.

(** The broken request, from the initial state. *)
Lemma failed_create_residue_witness :
  let st' := (serve broken_request initial).2 in
  serve broken_request initial = (value_error "failed to compile C++", st')
  ∧ kernels st' = kernels initial
  ∧ last_identifier st' = int64 (last_identifier initial + 1).
Proof.
  intros st'.
  assert (H : serve broken_request initial
              = (value_error "failed to compile C++", st'))
    by (vm_compute; reflexivity).
  split; [exact H |].
  destruct (failed_create_residue broken_request initial _ st' H)
    as (Hk & Hl & _).
  exact (conj Hk Hl).
Defined.

End Outcomes.

(** ** The contents of the registry *)

Section RegistryExtras.

Import CpuKernel.

Lemma run_app rs1 rs2 st :
  run (rs1 ++ rs2) st
  = (((run rs1 st).1 ++ (run rs2 (run rs1 st).2).1)%list,
     (run rs2 (run rs1 st).2).2).
Proof.
  revert st. induction rs1 as [|r rs1 IH]; intros st.
  - simpl. by destruct (run rs2 st).
  - rewrite <- app_comm_cons, !run_cons, IH. reflexivity.
Qed.

(** A returned identifier is a key from then on. *)
Lemma run_registers rs : ∀ st k,
  returned (run rs st).1 k → is_Some (kernels (run rs st).2 !! k).
Proof.
  induction rs as [|r rs IH]; intros st k (e & He & Hret).
  - simpl in He. by apply elem_of_nil in He.
  - rewrite run_cons in *. cbn [fst snd] in *.
    apply elem_of_cons in He as [-> | He]; [| apply IH; by exists e].
    cbn [outcome] in Hret.
    destruct (serve r st) as [res st'] eqn:Hserve. cbn [fst snd] in *.
    subst res. apply serve_steps in Hserve as [_ [-> [entry Hmap]]].
    assert (Hk : is_Some (kernels st' !! last_identifier st)).
    { rewrite Hmap, try_emplace_lookup.
      destruct (kernels st !! last_identifier st); [done |].
      by rewrite decide_True. }
    destruct Hk as [kernel Hk]. exists kernel. by apply run_keeps.
Qed.

(** X8. After any history from the initial state, [get] finds a kernel
    for an identifier that is not one of the two keys the map keeps for
    itself exactly when a call returned that identifier. *)
Theorem registered_iff_returned (rs : list Request) (k : Z) :
  DenseMap_reserved k = false →
  is_Some (get k (run rs initial).2) ↔ returned (run rs initial).1 k.
Proof.
  intros _. split.
  - intros Hk. destruct (run_keys rs initial k Hk) as [Hinit | Hret]; [| done].
    cbn [initial kernels] in Hinit. rewrite lookup_empty in Hinit.
    by destruct Hinit.
  - apply run_registers.
Qed.

(** Identifier 3 was returned in the sample history. *)
Lemma sample_returned_3 : returned (run sample_history initial).1 3.
Proof.
  exists {| allocated := 3; outcome := Return 3 |}. split; [| reflexivity].
  vm_compute. do 2 apply list_elem_of_further. apply list_elem_of_here.
Defined.

(** Identifier 3 of the sample history was returned, and is a key. *)
Lemma registered_iff_returned_witness :
  DenseMap_reserved 3 = false
  ∧ returned (run sample_history initial).1 3
  ∧ is_Some (get 3 (run sample_history initial).2).
Proof.
  assert (H : DenseMap_reserved 3 = false) by (vm_compute; reflexivity).
  split; [exact H |]. split; [exact sample_returned_3 |].
  exact (proj2 (registered_iff_returned sample_history 3 H)
           sample_returned_3).
Defined.

Lemma run_provenance rs : ∀ st k kernel,
  kernels (run rs st).2 !! k = Some kernel →
  kernels st !! k = Some kernel ∨ created_by rs (run rs st).1 k kernel.
Proof.
  induction rs as [|r rs IH]; intros st k kernel Hk; [by left |].
  rewrite run_cons in *. cbn [fst snd] in *.
  destruct (IH _ _ _ Hk)
    as [Hst' | (i & r' & e & Hr & He & Hret & Hid & Hshapes & Haddr)].
  - pose proof (serve_eq r st) as Heq.
    unfold resolve_step, after_entry, after_engine, set_DL, set_kernels in Heq.
    destruct (serve r st) as [res st'] eqn:Hserve. cbn [fst snd] in *.
    destruct (compile_step r) as [module |]; [| left; by simplify_eq/=].
    destruct (engine_step r st module); [| left; by simplify_eq/=].
    destruct (link_step r st module); [| left; by simplify_eq/=].
    destruct (lookup _ _ _) as [entry |] eqn:Hentry;
      [| left; by simplify_eq/=].
    simplify_eq/=. rewrite try_emplace_lookup in Hst'.
    destruct (kernels st !! k) eqn:Hold; [left; congruence |].
    case_decide; [| done]. simplify_eq.
    right. exists 0%nat, r, {| allocated := last_identifier st;
                               outcome := Return (last_identifier st) |}.
    by repeat split.
  - right. exists (S i), r', e. by repeat split.
Qed.

(** X9. Every record of the map was put there by a call of the history that
    returned its key: the record holds that key as its identifier, the
    shapes of that call, and the address that [lookup] gave for [entry] in
    the [JITDylib] named after the key. *)
Theorem registry_provenance (rs : list Request) (k : Z) (kernel : t) :
  get k (run rs initial).2 = Some kernel →
  ∃ i r e,
    rs !! i = Some r ∧ (run rs initial).1 !! i = Some e
    ∧ outcome e = Return k
    ∧ identifier kernel = k
    ∧ out_shapes kernel = map snd (py_out_shapes r)
    ∧ lookup (toolchain r) (dylib_name k) "entry" = Some (addr kernel).
Proof.
  intros Hk. destruct (run_provenance rs initial k kernel Hk) as [Hinit | H].
  - cbn [initial kernels] in Hinit. by rewrite lookup_empty in Hinit.
  - exact H.
Qed.

(** The kernel of the sample history comes from one of its calls. *)
Lemma registry_provenance_witness :
  get 3 (run sample_history initial).2 = Some sample_kernel
  ∧ ∃ i r e,
      sample_history !! i = Some r
      ∧ (run sample_history initial).1 !! i = Some e
      ∧ outcome e = Return 3
      ∧ identifier sample_kernel = 3
      ∧ out_shapes sample_kernel = map snd (py_out_shapes r)
      ∧ lookup (toolchain r) (dylib_name 3) "entry"
        = Some (addr sample_kernel).
Proof.
  assert (H : get 3 (run sample_history initial).2 = Some sample_kernel)
    by (vm_compute; reflexivity).
  split; [exact H |].
  exact (registry_provenance sample_history 3 sample_kernel H).
Defined.

(** X10. From any state, a kernel that [get] finds is found unchanged after
    any further calls of [create], failed or not, and [CpuCallback] on its
    identifier does what it did before. *)
Theorem registered_kernel_is_permanent
    (st : State) (rs : list Request) (k : Z) (kernel : t) :
  get k st = Some kernel →
  get k (run rs st).2 = Some kernel
  ∧ ∀ (mem : Memory) (out ins ins_0 word : Z),
      mem !! ins = Some ins_0 → mem !! ins_0 = Some word → int64 word = k →
      CpuCallback (run rs st).2 mem out ins = CpuCallback st mem out ins.
Proof.
  intros Hget. split; [by apply run_keeps |].
  intros mem out ins ins_0 word Hins Hword <-.
  unfold CpuCallback. rewrite Hins, Hword. unfold get in *.
  by rewrite (run_keeps rs st _ _ Hget), Hget.
Qed.

(** The kernel of the sample history after one more, failing, call. *)
Lemma registered_kernel_is_permanent_witness :
  let st := (run sample_history initial).2 in
  get 3 st = Some sample_kernel
  ∧ get 3 (run [broken_request] st).2 = Some sample_kernel.
Proof.
  intros st.
  assert (H : get 3 st = Some sample_kernel) by (vm_compute; reflexivity).
  split; [exact H |].
  exact (proj1 (registered_kernel_is_permanent st [broken_request] 3
                  sample_kernel H)).
Defined.

End RegistryExtras.

(** ** Create, then invoke *)

Section EndToEnd.

Import CpuKernel.

(** X11. Create, then invoke: when a call returned [k], then after any
    further calls [CpuCallback] on a memory that holds [k] calls the address
    that [lookup] gave for [entry] in that call, with the address of [out]
    when the call had at most one output and [out] itself otherwise, and
    with [ins + 1]. *)
Theorem created_kernel_is_dispatched
    (rs : list Request) (r : Request) (rs' : list Request)
    (k : Z) (st1 : State) (mem : Memory) (out ins ins_0 word : Z) :
  Z.of_nat (length rs) < INT64_MAX →
  serve r (run rs initial).2 = (Return k, st1) →
  mem !! ins = Some ins_0 →
  mem !! ins_0 = Some word →
  int64 word = k →
  ∃ entry,
    lookup (toolchain r) (dylib_name k) "entry" = Some entry
    ∧ CpuCallback (run rs' st1).2 mem out ins
      = Called {| fn := entry;
                  outs := if (1 <? length (py_out_shapes r))%nat
                          then reinterpreted out
                          else address_of out;
                  ins := ins + sizeof_pointer |}.
Proof.
  intros Hlen Hserve Hins Hword Hk.
  destruct (history_fresh _ Hlen) as [_ Hnone].
  rewrite serve_eq in Hserve. unfold resolve_step in Hserve.
  destruct (compile_step r) as [module |]; [| done].
  destruct (engine_step r _ module); [| done].
  destruct (link_step r _ module); [| done].
  destruct (lookup _ _ _) as [entry |] eqn:Hentry; [| done].
  injection Hserve as <- <-. exists entry. split; [done |].
  unfold CpuCallback, get. rewrite Hins, Hword, Hk.
  erewrite run_keeps.
  2:{ cbn [set_kernels kernels]. rewrite try_emplace_lookup, Hnone.
      by rewrite decide_True. }
  unfold call. cbn [addr out_shapes]. by rewrite Z.mul_1_l, length_map.
Qed.

(** The third call returns 3; after a failing call the callback on 3 calls
    the address of its entry. *)
Lemma created_kernel_is_dispatched_witness :
  let rs := [copy_request ["riscv64"]; broken_request] in
  let st1 := (serve (copy_request []) (run rs initial).2).2 in
  serve (copy_request []) (run rs initial).2 = (Return 3, st1)
  ∧ sample_memory 3 !! 100 = Some 200
  ∧ sample_memory 3 !! 200 = Some 3
  ∧ int64 3 = 3
  ∧ ∃ entry,
      lookup host_toolchain (dylib_name 3) "entry" = Some entry
      ∧ CpuCallback (run [broken_request] st1).2 (sample_memory 3) 300 100
        = Called {| fn := entry; outs := address_of 300; ins := 108 |}.
Proof.
  intros rs st1.
  assert (H1 : serve (copy_request []) (run rs initial).2 = (Return 3, st1))
    by (vm_compute; reflexivity).
  assert (H2 : sample_memory 3 !! 100 = Some 200) by (vm_compute; reflexivity).
  assert (H3 : sample_memory 3 !! 200 = Some 3) by (vm_compute; reflexivity).
  assert (H4 : int64 3 = 3) by (vm_compute; reflexivity).
  split; [exact H1 |]. split; [exact H2 |]. split; [exact H3 |].
  split; [exact H4 |].
  apply (created_kernel_is_dispatched rs (copy_request []) [broken_request]
           3 st1 (sample_memory 3) 300 100 200 3);
    [vm_compute; reflexivity | exact H1 | exact H2 | exact H3 | exact H4].
Defined.

End EndToEnd.

(** ** The JIT *)

Section EngineExtras.

Import CpuKernel.

Lemma serve_keeps_jit r st J res st' :
  JIT st = Some J →
  serve r st = (res, st') →
  res ≠ value_error "failed to create jit"
  ∧ DL st' = DL st
  ∧ ∃ J',
      JIT st' = Some J'
      ∧ jit_layout J' = jit_layout J
      ∧ jit_triple J' = jit_triple J
      ∧ dylibs J `suffix_of` dylibs J'.
Proof.
  intros HJ. rewrite serve_eq. unfold engine_step, after_engine, after_entry.
  rewrite HJ.
  destruct (compile_step r) as [module |];
    [destruct (link_step r st module); [destruct (resolve_step r st) |] |];
    intros [= <- <-]; cbn [DL JIT set_kernels]; rewrite ?HJ;
    (split; [done |]); (split; [done |]); eexists; (split; [done |]);
    cbn [jit_layout jit_triple dylibs];
    (split; [done |]); (split; [done |]);
    by (apply suffix_cons_r || done).
Qed.

(** X12. Once there is a JIT it is never built again: after any further
    calls its layout and triple and [DL] are the same, the names of its
    session have only grown at the front, and no call failed with [failed
    to create jit], whatever the modules of those calls are. *)
Theorem jit_is_built_once (st : State) (J : LLJIT) (rs : list Request) :
  JIT st = Some J →
  (∀ e, e ∈ (run rs st).1 → outcome e ≠ value_error "failed to create jit")
  ∧ DL (run rs st).2 = DL st
  ∧ ∃ J',
      JIT (run rs st).2 = Some J'
      ∧ jit_layout J' = jit_layout J
      ∧ jit_triple J' = jit_triple J
      ∧ dylibs J `suffix_of` dylibs J'.
Proof.
  revert st J. induction rs as [|r rs IH]; intros st J HJ.
  - split; [intros e He; by apply elem_of_nil in He |].
    split; [done |]. by exists J.
  - rewrite run_cons. cbn [fst snd].
    destruct (serve r st) as [res st'] eqn:Hserve. cbn [fst snd].
    destruct (serve_keeps_jit r st J res st' HJ Hserve)
      as (Hres & HDL & J1 & HJ1 & Hlay & Htri & Hsuf).
    destruct (IH st' J1 HJ1) as (Hlog & HDL' & J2 & HJ2 & Hlay' & Htri' & Hsuf').
    split.
    { intros e [-> | He]%elem_of_cons; [done | by apply Hlog]. }
    split; [congruence |].
    exists J2. repeat split; [done | congruence | congruence |].
    by etrans.
Qed.

(** The JIT of the sample history after a call for the foreign target. *)
Lemma jit_is_built_once_witness :
  let st := (run sample_history initial).2 in
  JIT st = Some sample_jit
  ∧ DL (run [copy_request ["riscv64"]] st).2 = DL st
  ∧ ∃ J',
      JIT (run [copy_request ["riscv64"]] st).2 = Some J'
      ∧ jit_layout J' = jit_layout sample_jit
      ∧ jit_triple J' = jit_triple sample_jit
      ∧ dylibs sample_jit `suffix_of` dylibs J'.
Proof.
  intros st.
  assert (H : JIT st = Some sample_jit) by (vm_compute; reflexivity).
  split; [exact H |].
  exact (proj2 (jit_is_built_once st sample_jit [copy_request ["riscv64"]] H)).
Defined.

(** X13. A call that finds no JIT and leaves one has compiled its text, and
    the builder accepted the layout and triple of that module: the JIT has
    that layout and triple, its session holds the [JITDylib] of the call
    only, and [DL] is that layout. *)
Theorem jit_is_built_from_first_module
    (r : Request) (st : State) (res : result Z) (st' : State) (J : LLJIT) :
  JIT st = None →
  serve r st = (res, st') →
  JIT st' = Some J →
  ∃ module,
    compile_step r = Some module
    ∧ LLJITBuilder_create (toolchain r) (data_layout module)
        (target_triple module) = true
    ∧ J = {| jit_layout := data_layout module;
             jit_triple := target_triple module;
             dylibs := [dylib_name (last_identifier st)] |}
    ∧ DL st' = Some (data_layout module).
Proof.
  intros HJ. rewrite serve_eq. unfold engine_step, after_engine, after_entry.
  rewrite HJ.
  destruct (compile_step r) as [module |];
    [destruct (LLJITBuilder_create _ _ _) eqn:Hbuild;
     [destruct (link_step r st module); [destruct (resolve_step r st) |] |] |];
    intros [= <- <-]; cbn [DL JIT set_kernels set_DL]; rewrite ?HJ;
    intros [= <-]; by exists module.
Qed.

(** The third call of the sample history builds the JIT. *)
Lemma jit_is_built_from_first_module_witness :
  let st := (run [copy_request ["riscv64"]; broken_request] initial).2 in
  let st' := (serve (copy_request []) st).2 in
  JIT st = None
  ∧ serve (copy_request []) st = (Return 3, st')
  ∧ JIT st' = Some sample_jit
  ∧ ∃ module,
      compile_step (copy_request []) = Some module
      ∧ LLJITBuilder_create host_toolchain (data_layout module)
          (target_triple module) = true
      ∧ sample_jit = {| jit_layout := data_layout module;
                        jit_triple := target_triple module;
                        dylibs := [dylib_name (last_identifier st)] |}
      ∧ DL st' = Some (data_layout module).
Proof.
  intros st st'.
  assert (H1 : JIT st = None) by (vm_compute; reflexivity).
  assert (H2 : serve (copy_request []) st = (Return 3, st'))
    by (vm_compute; reflexivity).
  assert (H3 : JIT st' = Some sample_jit) by (vm_compute; reflexivity).
  split; [exact H1 |]. split; [exact H2 |]. split; [exact H3 |].
  exact (jit_is_built_from_first_module (copy_request []) st (Return 3) st'
           sample_jit H1 H2 H3).
Defined.

End EngineExtras.

(** ** The session of the JIT *)

Section SessionExtras.

Import CpuKernel.

Lemma serve_session_covers r st :
  session_covers st → session_covers (serve r st).2.
Proof.
  intros [Hkeys Hlayout]. rewrite serve_eq.
  unfold engine_step, after_engine, after_entry, set_DL, set_kernels.
  destruct (compile_step r) as [module |]; [| done].
  destruct (JIT st) as [J |] eqn:HJ.
  - assert (Hstep : session_covers
      {| kernels := kernels st;
         last_identifier := int64 (last_identifier st + 1);
         DL := DL st;
         JIT := Some {| jit_layout := jit_layout J; jit_triple := jit_triple J;
                        dylibs := dylib_name (last_identifier st) :: dylibs J |}
      |}).
    { split; cbn [kernels JIT DL].
      - intros k Hk. destruct (Hkeys k Hk) as (J0 & [= <-] & Hin).
        eexists. split; [done |]. by apply list_elem_of_further.
      - intros J' [= <-]. cbn [jit_layout]. by apply Hlayout. }
    destruct (link_step r st module); [| done].
    destruct (resolve_step r st) as [entry |]; [| done].
    cbn [snd]. destruct Hstep as [Hkeys' Hlayout']. split; [| done].
    cbn [kernels JIT]. intros k. rewrite try_emplace_lookup.
    destruct (kernels st !! k) eqn:Hold; [intros _; by apply Hkeys' |].
    case_decide; [| by intros []]. subst k. intros _.
    eexists. split; [done |]. apply list_elem_of_here.
  - assert (Hempty : ∀ k, kernels st !! k = None).
    { intros k. destruct (kernels st !! k) eqn:Hk; [| done].
      destruct (Hkeys k) as (J0 & ? & _); [by rewrite Hk | done]. }
    destruct (LLJITBuilder_create _ _ _).
    + destruct (link_step r st module);
        [destruct (resolve_step r st) as [entry |] |];
        cbn [snd]; (split; cbn [kernels JIT DL];
          [| by intros J' [= <-]]); intros k; rewrite ?try_emplace_lookup;
          rewrite Hempty; try by intros [].
      case_decide; [| by intros []]. subst k. intros _.
      eexists. split; [done |]. apply list_elem_of_here.
    + cbn [snd]. split; cbn [kernels JIT DL]; [| done].
      intros k. rewrite Hempty. by intros [].
Qed.

Lemma run_session_covers rs : ∀ st,
  session_covers st → session_covers (run rs st).2.
Proof.
  induction rs as [|r rs IH]; intros st Hst; [done |].
  rewrite run_cons. cbn [snd]. by apply IH, serve_session_covers.
Qed.

(** X14. After any history from the initial state every registered kernel
    has the [JITDylib] named after its identifier in the session of the
    JIT, and whenever there is a JIT, [DL] is the layout it was built
    with. *)
Theorem registered_kernel_has_dylib (rs : list Request) :
  let st := (run rs initial).2 in
  (∀ k, is_Some (get k st) →
     ∃ J, JIT st = Some J ∧ dylib_name k ∈ dylibs J)
  ∧ (∀ J, JIT st = Some J → DL st = Some (jit_layout J)).
Proof.
  apply (run_session_covers rs initial). split.
  - intros k. cbn [initial kernels]. rewrite lookup_empty. by intros [].
  - done.
Qed.

(** The kernel of the sample history has its [JITDylib]. *)
Lemma registered_kernel_has_dylib_witness :
  let st := (run sample_history initial).2 in
  is_Some (get 3 st)
  ∧ ∃ J, JIT st = Some J ∧ dylib_name 3 ∈ dylibs J.
Proof.
  intros st.
  assert (H : is_Some (get 3 st)) by (vm_compute; eauto).
  split; [exact H |].
  exact (proj1 (registered_kernel_has_dylib sample_history) 3 H).
Defined.

Lemma serve_session_distinct r st :
  1 ≤ last_identifier st < INT64_MAX →
  session_distinct st → session_distinct (serve r st).2.
Proof.
  unfold INT64_MAX. intros Hlast Hst. rewrite serve_eq.
  unfold engine_step, after_engine, after_entry, set_DL, set_kernels.
  assert (Hnext : int64 (last_identifier st + 1) = last_identifier st + 1)
    by (apply int64_small; lia).
  assert (Hweaken : ∀ J,
    JIT st = Some J →
    NoDup (dylibs J)
    ∧ ∀ name, name ∈ dylibs J →
        ∃ k, 1 ≤ k < last_identifier st + 1 ∧ name = dylib_name k).
  { intros J HJ. destruct (Hst J HJ) as [Hnodup Hnames]. split; [done |].
    intros name Hin. destruct (Hnames name Hin) as (k & Hk & ->).
    exists k. split; [lia | done]. }
  assert (Hcons : ∀ J,
    JIT st = Some J →
    NoDup (dylib_name (last_identifier st) :: dylibs J)
    ∧ ∀ name, name ∈ dylib_name (last_identifier st) :: dylibs J →
        ∃ k, 1 ≤ k < last_identifier st + 1 ∧ name = dylib_name k).
  { intros J HJ. destruct (Hst J HJ) as [Hnodup Hnames]. split.
    - apply NoDup_cons. split; [| done]. intros Hin.
      destruct (Hnames _ Hin) as (k & Hk & Heq).
      apply dylib_name_inj in Heq. lia.
    - intros name [-> | Hin]%elem_of_cons.
      + exists (last_identifier st). split; [lia | done].
      + destruct (Hnames name Hin) as (k & Hk & ->).
        exists k. split; [lia | done]. }
  assert (Hfirst :
    NoDup [dylib_name (last_identifier st)]
    ∧ ∀ name, name ∈ [dylib_name (last_identifier st)] →
        ∃ k, 1 ≤ k < last_identifier st + 1 ∧ name = dylib_name k).
  { split; [apply NoDup_singleton |].
    intros name ->%list_elem_of_singleton.
    exists (last_identifier st). split; [lia | done]. }
  destruct (compile_step r) as [module |];
    [destruct (JIT st) as [J |] eqn:HJ;
     [| destruct (LLJITBuilder_create _ _ _)];
     [destruct (link_step r st module); [destruct (resolve_step r st) |] ..
     | ] |];
    cbn [snd]; intros J' HJ'; cbn [JIT last_identifier] in *;
    rewrite Hnext; simplify_eq; cbn [dylibs]; eauto.
Qed.

Lemma run_session_distinct rs : ∀ st,
  1 ≤ last_identifier st →
  last_identifier st + Z.of_nat (length rs) ≤ INT64_MAX →
  session_distinct st → session_distinct (run rs st).2.
Proof.
  unfold INT64_MAX.
  induction rs as [|r rs IH]; intros st Hlo Hhi Hst; [done |].
  rewrite run_cons. cbn [snd]. simpl length in Hhi.
  pose proof (serve_session_distinct r st) as Hstep.
  destruct (serve r st) as [res st'] eqn:Hserve. cbn [snd] in *.
  apply serve_steps in Hserve as [Hnext _].
  rewrite int64_small in Hnext by lia.
  apply IH; [lia | lia |]. apply Hstep; [unfold INT64_MAX; lia | done].
Qed.

(** X15. In a history that stays within [int64_t] no two [JITDylib]s of the
    session have the same name, and every name is [enzymedl_] followed by
    the identifier of a call of the history. *)
Theorem session_names_are_distinct (rs : list Request) (J : LLJIT) :
  Z.of_nat (length rs) < INT64_MAX →
  JIT (run rs initial).2 = Some J →
  NoDup (dylibs J)
  ∧ ∀ name, name ∈ dylibs J →
      ∃ i, (i < length rs)%nat ∧ name = dylib_name (1 + Z.of_nat i).
Proof.
  intros Hlen HJ.
  destruct (run_session_distinct rs initial) with (J := J)
    as [Hnodup Hnames]; cbn [initial last_identifier]; try done; try lia.
  split; [done |]. intros name Hin.
  destruct (Hnames name Hin) as (k & Hk & ->).
  rewrite history_last_identifier in Hk by done.
  exists (Z.to_nat (k - 1)). split; [lia |]. f_equal. lia.
Qed.

(** The session of the sample history. *)
Lemma session_names_are_distinct_witness :
  Z.of_nat (length sample_history) < INT64_MAX
  ∧ JIT (run sample_history initial).2 = Some sample_jit
  ∧ NoDup (dylibs sample_jit).
Proof.
  assert (H1 : Z.of_nat (length sample_history) < INT64_MAX)
    by (vm_compute; reflexivity).
  assert (H2 : JIT (run sample_history initial).2 = Some sample_jit)
    by (vm_compute; reflexivity).
  split; [exact H1 |]. split; [exact H2 |].
  exact (proj1 (session_names_are_distinct sample_history sample_jit H1 H2)).
Defined.

End SessionExtras.

(** ** Counting records *)

Section Counting.

Import CpuKernel.

Lemma returned_identifiers_cons e log :
  returned_identifiers (e :: log)
  = match outcome e with
    | Return k => k :: returned_identifiers log
    | _ => returned_identifiers log
    end.
Proof. unfold returned_identifiers. simpl. by destruct (outcome e). Qed.

Lemma run_size rs : ∀ st,
  1 ≤ last_identifier st →
  last_identifier st + Z.of_nat (length rs) ≤ INT64_MAX + 1 →
  (∀ k, is_Some (kernels st !! k) → k < last_identifier st) →
  size (kernels (run rs st).2)
  = (size (kernels st) + length (returned_identifiers (run rs st).1))%nat.
Proof.
  unfold INT64_MAX.
  induction rs as [|r rs IH]; intros st Hlo Hhi Hkeys.
  - simpl. lia.
  - rewrite run_cons. cbn [fst snd]. simpl length in Hhi.
    rewrite returned_identifiers_cons. cbn [outcome].
    destruct (serve r st) as [res st'] eqn:Hserve. cbn [fst snd].
    apply serve_steps in Hserve as [Hnext Hres].
    destruct rs as [|r' rs].
    { simpl. destruct res as [k | |]; simpl; rewrite ?Hres; try lia.
      destruct Hres as [-> [entry ->]]. unfold try_emplace.
      destruct (kernels st !! last_identifier st) eqn:Hold.
      - specialize (Hkeys (last_identifier st)). rewrite Hold in Hkeys.
        specialize (Hkeys (mk_is_Some _ _ eq_refl)). lia.
      - rewrite map_size_insert_None by done. lia. }
    rewrite int64_small in Hnext by (simpl length in Hhi; lia).
    rewrite IH; [| lia | lia |].
    + destruct res as [k | |]; simpl; rewrite ?Hres; try lia.
      destruct Hres as [-> [entry ->]]. unfold try_emplace.
      destruct (kernels st !! last_identifier st) eqn:Hold.
      * specialize (Hkeys (last_identifier st)). rewrite Hold in Hkeys.
        specialize (Hkeys (mk_is_Some _ _ eq_refl)). lia.
      * rewrite map_size_insert_None by done. lia.
    + intros k. rewrite Hnext.
      destruct res as [k' | |]; rewrite ?Hres;
        try (intros Hk; specialize (Hkeys k Hk); lia).
      destruct Hres as [-> [entry ->]]. rewrite try_emplace_lookup.
      destruct (kernels st !! k) eqn:Hold.
      * intros _. specialize (Hkeys k). rewrite Hold in Hkeys.
        specialize (Hkeys (mk_is_Some _ _ eq_refl)). lia.
      * case_decide; [intros _; lia | by intros []].
Qed.

(** X17. In a history that stays within [int64_t] the map holds as many
    records as calls returned. *)
Theorem registry_size (rs : list Request) :
  Z.of_nat (length rs) ≤ INT64_MAX →
  size (kernels (run rs initial).2)
  = length (returned_identifiers (run rs initial).1).
Proof.
  unfold INT64_MAX. intros Hlen.
  rewrite run_size; cbn [initial last_identifier kernels].
  - by rewrite map_size_empty.
  - lia.
  - unfold INT64_MAX. lia.
  - intros k. rewrite lookup_empty. by intros [].
Qed.

(** The sample history: one call returned, one record. *)
Lemma registry_size_witness :
  Z.of_nat (length sample_history) ≤ INT64_MAX
  ∧ size (kernels (run sample_history initial).2)
    = length (returned_identifiers (run sample_history initial).1).
Proof.
  assert (H : Z.of_nat (length sample_history) ≤ INT64_MAX)
    by (vm_compute; discriminate).
  split; [exact H |].
  exact (registry_size sample_history H).
Defined.

End Counting.
